(** * Banking assistant: supervisor orchestration and the payment tool

    A shallow embedding of

    - [app/copilot/app/agents/azure_chat/supervisor_agent.py]: the
      [SupervisorAgent] class with its two class-level thread stores, the
      blocking turn [processMessage], the streaming turn
      [processMessageStream] and the three [route_to_*] tools;
    - [app/business-api/python/payment/mcp_tools.py]: the [processPayment]
      tool.

    The agent framework (the chat agent, its threads, the language model
    behind it) is outside the repository.  Its in-memory operations are the
    fields of the class [AgentFramework]; what a model-backed call does
    during one turn is the record [World], over which every statement
    quantifies.

    A turn is run from start to end on the supervisor's state: the
    coroutines are followed in program order, and no second turn runs on
    the same [SupervisorAgent] object in between.  Exceptions are values
    ([Raised]); what an [async] generator yields is logged, in order, next
    to the responder runs.

    The two turns are embedded twice.  The first embedding has the raises
    of class [Exception] from the model-backed calls.  The module [Async]
    adds what [except Exception] does not catch, the cancellation of the
    task ([asyncio.CancelledError]), and serializations that raise; with
    neither, it is the first embedding
    ([async_processMessageStream_faultless],
    [async_processMessage_faultless]). *)

From stdpp Require Import gmap strings.
From Stdlib Require Import Floats.

(** ** Python exceptions and results *)

Inductive Exception : Type :=
| AgentThreadException (msg : string)
| AttributeError (msg : string)
| OtherException (msg : string).

(** [str(e)] *)
Definition str (e : Exception) : string :=
  match e with
  | AgentThreadException m | AttributeError m | OtherException m => m
  end.

Inductive Outcome (A : Type) : Type :=
| Returned (a : A)
| Raised (e : Exception).
Arguments Returned {A} a.
Arguments Raised {A} e.

(** ** The agent framework *)

(** The three sub-agents handed to [SupervisorAgent.__init__]. *)
Inductive Responder : Type := AccountAgent | TransactionHistoryAgent | PaymentAgent.

(** Threads of the agent framework.  [get_new_thread] is
    [agent.get_new_thread()], [serialize] is [await thread.serialize()] and
    [update_from_thread_state t s] is the thread [t] after
    [await t.update_from_thread_state(s)].  They work on memory only and are
    total functions here; a serialization that raises is a fault of the
    turn, in [Async]. *)
Class AgentFramework : Type := {
  AgentThread : Type;
  ThreadState : Type;
  get_new_thread : AgentThread;
  serialize : AgentThread -> ThreadState;
  update_from_thread_state : AgentThread -> ThreadState -> AgentThread
}.

(** What a tool call gives back to the run that made it. *)
Inductive ToolOutcome : Type :=
| ToolReturned (text : string)
| ToolRaised (e : Exception).

(** What a model-backed run does, seen from its caller: it may invoke one
    of the tools it was built with, passing a message of its own making,
    and go on from what the tool gave back; it may hand out a chunk (only
    [run_stream] does: [run] is an interaction without chunks, [C] being
    [Empty_set]); it ends with a result or by raising. *)
Inductive Interaction (C R : Type) : Type :=
| Finish (r : R)
| Throw (e : Exception)
| Invoke (tool : Responder) (generated_message : string)
         (k : ToolOutcome -> Interaction C R)
| Emit (chunk : C) (k : Interaction C R).
Arguments Finish {C R} r.
Arguments Throw {C R} e.
Arguments Invoke {C R} tool generated_message k.
Arguments Emit {C R} chunk k.

(** A streamed update; [chunk_text] is [None] when the update has no
    [text] attribute or its [text] is [None]. *)
Record Chunk : Type := { chunk_text : option string }.

Section Supervisor.
Context `{F : AgentFramework}.

(** Everything outside the supervisor that one turn meets. *)
Record World : Type := {
  (** [str(uuid4())] *)
  uuid4 : string;
  (** [self.azure_chat_client.create_agent(...)]: [Some e] when it raises *)
  create_agent : option Exception;
  (** [hasattr(agent, 'run_stream')] on the supervisor's agent *)
  has_run_stream : bool;
  (** [agent.run(message, thread=t)]: the response text and [t] as the run
      leaves it *)
  agent_run : string -> AgentThread -> Interaction Empty_set (string * AgentThread);
  (** [agent.run_stream(message, thread=t)] *)
  agent_run_stream : string -> AgentThread -> Interaction Chunk AgentThread;
  (** [await sub_agent.build_af_agent()]: [Some e] when it raises *)
  build_af_agent : Responder -> option Exception;
  (** whether the agent a responder builds has [run_stream]; the supervisor
      never asks *)
  responder_has_run_stream : Responder -> bool;
  (** [af_agent.run(message, thread=t)] of a responder: what it returns or
      raises, and [t] as the run leaves it *)
  responder_run : Responder -> string -> AgentThread -> ToolOutcome * AgentThread
}.

(** ** The supervisor's state *)

(** The two class attributes [thread_store] and [supervisor_thread_store]
    and the two instance attributes set during a turn. *)
Record SupervisorAgent : Type := {
  thread_store : gmap string ThreadState;
  supervisor_thread_store : gmap string ThreadState;
  self_current_thread : option AgentThread;
  self_user_message : option string
}.

(** The class as loaded: both stores are [{}], no attribute is set. *)
Definition initial : SupervisorAgent :=
  {| thread_store := ∅; supervisor_thread_store := ∅;
     self_current_thread := None; self_user_message := None |}.

(** What a turn does that its caller or a responder sees, in order. *)
Inductive Event : Type :=
| Dispatched (agent : Responder) (utterance : string) (thread : AgentThread)
| Yielded (content : string) (is_final : bool) (thread_id : option string).

(** ** A monad for state, exceptions and the event log *)

Definition M (A : Type) : Type :=
  SupervisorAgent -> Outcome A * SupervisorAgent * list Event.

#[export] Instance M_ret : MRet M := λ A a s, (Returned a, s, []).

#[export] Instance M_bind : MBind M := λ A B f m s,
  match m s with
  | (Returned a, s', evs) =>
      let '(o, s'', evs') := f a s' in (o, s'', evs ++ evs')
  | (Raised e, s', evs) => (Raised e, s', evs)
  end.

Definition raise {A} (e : Exception) : M A := λ s, (Raised e, s, []).

Definition get : M SupervisorAgent := λ s, (Returned s, s, []).

Definition emit (ev : Event) : M unit := λ s, (Returned (), s, [ev]).

(** [try: body except Exception as e: handler(e)] *)
Definition try_except {A} (body : M A) (handler : Exception -> M A) : M A :=
  λ s,
  match body s with
  | (Returned a, s', evs) => (Returned a, s', evs)
  | (Raised e, s', evs) =>
      let '(o, s'', evs') := handler e s' in (o, s'', evs ++ evs')
  end.

(** A tool run by the framework: what it returned or raised goes back to
    the model. *)
Definition invoke_tool (tool : M string) : M ToolOutcome :=
  try_except (text ← tool; mret (ToolReturned text))
             (λ e, mret (ToolRaised e)).

(** Attribute and store updates *)
Definition with_thread_store (id : string) (st : ThreadState)
    (s : SupervisorAgent) : SupervisorAgent :=
  {| thread_store := <[id := st]> (thread_store s);
     supervisor_thread_store := supervisor_thread_store s;
     self_current_thread := self_current_thread s;
     self_user_message := self_user_message s |}.

Definition with_supervisor_thread_store (id : string) (st : ThreadState)
    (s : SupervisorAgent) : SupervisorAgent :=
  {| thread_store := thread_store s;
     supervisor_thread_store := <[id := st]> (supervisor_thread_store s);
     self_current_thread := self_current_thread s;
     self_user_message := self_user_message s |}.

Definition with_current_thread (t : AgentThread) (s : SupervisorAgent) : SupervisorAgent :=
  {| thread_store := thread_store s;
     supervisor_thread_store := supervisor_thread_store s;
     self_current_thread := Some t;
     self_user_message := self_user_message s |}.

Definition with_user_message (m : string) (s : SupervisorAgent) : SupervisorAgent :=
  {| thread_store := thread_store s;
     supervisor_thread_store := supervisor_thread_store s;
     self_current_thread := self_current_thread s;
     self_user_message := Some m |}.

Definition modify (f : SupervisorAgent -> SupervisorAgent) : M unit :=
  λ s, (Returned (), f s, []).

Definition set_thread_store (id : string) (st : ThreadState) : M unit :=
  modify (with_thread_store id st).

Definition set_supervisor_thread_store (id : string) (st : ThreadState) : M unit :=
  modify (with_supervisor_thread_store id st).

Definition set_current_thread (t : AgentThread) : M unit :=
  modify (with_current_thread t).

Definition set_user_message (m : string) : M unit :=
  modify (with_user_message m).

(** Reading an instance attribute that was never set raises. *)
Definition get_current_thread : M AgentThread :=
  s ← get;
  match self_current_thread s with
  | Some t => mret t
  | None => raise (AttributeError "'SupervisorAgent' object has no attribute 'current_thread'")
  end.

Definition get_user_message : M string :=
  s ← get;
  match self_user_message s with
  | Some m => mret m
  | None => raise (AttributeError "'SupervisorAgent' object has no attribute 'user_message'")
  end.

(** ** The supervisor's program *)

(** [_build_af_agent]: the supervisor's chat agent, built with the three
    [route_to_*] methods as its tools. *)
Definition _build_af_agent (w : World) : M unit :=
  match create_agent w with
  | Some e => raise e
  | None => mret ()
  end.

(** The body shared by the three [route_to_*] methods, which differ in the
    responder only.  [user_message] is the argument the supervisor's model
    wrote for the tool call; the body never reads it and runs the responder
    on [self.user_message] and [self.current_thread], which the responder's
    run updates in place. *)
Definition route_to (w : World) (agent : Responder) (user_message : string) : M string :=
  match build_af_agent w agent with
  | Some e => raise e
  | None => mret ()
  end;;
  original ← get_user_message;
  thread ← get_current_thread;
  emit (Dispatched agent original thread);;
  let '(response, thread') := responder_run w agent original thread in
  set_current_thread thread';;
  match response with
  | ToolReturned text => mret text
  | ToolRaised e => raise e
  end.

Definition route_to_account_agent (w : World) : string -> M string :=
  route_to w AccountAgent.

Definition route_to_transaction_agent (w : World) : string -> M string :=
  route_to w TransactionHistoryAgent.

Definition route_to_payment_agent (w : World) : string -> M string :=
  route_to w PaymentAgent.

(** [tools=[self.route_to_account_agent, self.route_to_transaction_agent,
    self.route_to_payment_agent]] *)
Definition tools (w : World) (tool : Responder) : string -> M string :=
  match tool with
  | AccountAgent => route_to_account_agent w
  | TransactionHistoryAgent => route_to_transaction_agent w
  | PaymentAgent => route_to_payment_agent w
  end.

(** A run of the supervisor's agent inside the supervisor: tool calls run
    the [route_to_*] methods, chunks go through the body of the caller's
    [async for]. *)
Fixpoint interact {C R} (w : World) (body : C -> M unit) (i : Interaction C R) : M R :=
  match i with
  | Finish r => mret r
  | Throw e => raise e
  | Invoke tool generated_message k =>
      response ← invoke_tool (tools w tool generated_message);
      interact w body (k response)
  | Emit chunk k => body chunk;; interact w body k
  end.

(** The texts built by the f-strings of the class. *)
Definition thread_not_found (processed_thread_id : string) : Exception :=
  AgentThreadException
    ("Thread id " +:+ processed_thread_id +:+ " not found in thread stores").

Definition streaming_unsupported_message : string :=
  "Streaming is not supported by this agent. Please disable streaming in your settings and try again.".

Definition streaming_failed_message (stream_error : Exception) : string :=
  "Streaming failed: " +:+ str stream_error
    +:+ ". Please try again or disable streaming.".

Definition apology_message (e : Exception) : string :=
  "I apologize, but I encountered an error while processing your request: "
    +:+ str e.

(** Thread creation or resumption, the same lines in [processMessage]
    (143-168) and [processMessageStream] (76-95).  Gives
    [processed_thread_id] and [supervisor_resumed_thread]. *)
Definition resolve_thread (w : World) (thread_id : option string) : M (string * AgentThread) :=
  let supervisor_resumed_thread := get_new_thread in
  match thread_id with
  | None =>
      set_current_thread get_new_thread;;
      let processed_thread_id := uuid4 w in
      current_thread ← get_current_thread;
      set_thread_store processed_thread_id (serialize current_thread);;
      set_supervisor_thread_store processed_thread_id (serialize supervisor_resumed_thread);;
      mret (processed_thread_id, supervisor_resumed_thread)
  | Some processed_thread_id =>
      s ← get;
      match thread_store s !! processed_thread_id,
            supervisor_thread_store s !! processed_thread_id with
      | Some serialized_thread, Some supervisor_serialized_thread =>
          let resumed_thread := update_from_thread_state get_new_thread serialized_thread in
          set_current_thread resumed_thread;;
          mret (processed_thread_id,
                update_from_thread_state supervisor_resumed_thread supervisor_serialized_thread)
      | _, _ =>
          raise (thread_not_found processed_thread_id)
      end
  end.

(** Lines 176-177 and 125-126: both stores are written under
    [processed_thread_id]. *)
Definition update_thread_stores (processed_thread_id : string)
    (supervisor_resumed_thread : AgentThread) : M unit :=
  current_thread ← get_current_thread;
  set_thread_store processed_thread_id (serialize current_thread);;
  set_supervisor_thread_store processed_thread_id (serialize supervisor_resumed_thread).

(** [processMessage]: no exception is caught. *)
Definition processMessage (w : World) (user_message : string) (thread_id : option string)
  : M (string * string) :=
  _build_af_agent w;;
  '(processed_thread_id, supervisor_resumed_thread) ← resolve_thread w thread_id;
  set_user_message user_message;;
  '(response_text, supervisor_resumed_thread) ←
    interact w (λ chunk : Empty_set, match chunk with end)
             (agent_run w user_message supervisor_resumed_thread);
  update_thread_stores processed_thread_id supervisor_resumed_thread;;
  mret (response_text, processed_thread_id).

(** The body of the [async for] of [processMessageStream]:
    [if hasattr(chunk, 'text') and chunk.text: ... yield (content, False, None)].
    ([full_response], built here too, is never read.) *)
Definition relay_chunk (chunk : Chunk) : M unit :=
  match chunk_text chunk with
  | Some content =>
      if decide (content = "") then mret ()
      else emit (Yielded content false None)
  | None => mret ()
  end.

(** The inner [try] of [processMessageStream] (lines 110-122): [Some] of
    the supervisor's thread when the stream ended, [None] when it raised
    and the handler yielded the final element and returned. *)
Definition stream_response (w : World) (user_message processed_thread_id : string)
    (supervisor_resumed_thread : AgentThread) : M (option AgentThread) :=
  try_except
    (thread ← interact w relay_chunk
                (agent_run_stream w user_message supervisor_resumed_thread);
     mret (Some thread))
    (λ stream_error,
       emit (Yielded (streaming_failed_message stream_error) true
                     (Some processed_thread_id));;
       mret None).

(** [processMessageStream]: the values it yields are the [Yielded] events
    of the run, in order. *)
Definition processMessageStream (w : World) (user_message : string)
    (thread_id : option string) : M unit :=
  try_except
    (_build_af_agent w;;
     '(processed_thread_id, supervisor_resumed_thread) ← resolve_thread w thread_id;
     set_user_message user_message;;
     if negb (has_run_stream w) then
       emit (Yielded streaming_unsupported_message true (Some processed_thread_id))
     else
       streamed ← stream_response w user_message processed_thread_id
                    supervisor_resumed_thread;
       match streamed with
       | None => mret ()
       | Some supervisor_resumed_thread =>
           update_thread_stores processed_thread_id supervisor_resumed_thread;;
           emit (Yielded "" true (Some processed_thread_id))
       end)
    (λ e, emit (Yielded (apology_message e) true thread_id)).

(** ** Reading the result of a turn *)

Definition result_of {A} (r : Outcome A * SupervisorAgent * list Event) : Outcome A :=
  r.1.1.

Definition state_of {A} (r : Outcome A * SupervisorAgent * list Event) : SupervisorAgent :=
  r.1.2.

Definition events_of {A} (r : Outcome A * SupervisorAgent * list Event) : list Event :=
  r.2.

(** The elements a streaming turn hands to its consumer. *)
Definition Element : Type := string * bool * option string.

Fixpoint yielded (evs : list Event) : list Element :=
  match evs with
  | [] => []
  | Yielded content is_final thread_id :: evs' =>
      (content, is_final, thread_id) :: yielded evs'
  | Dispatched _ _ _ :: evs' => yielded evs'
  end.

Definition is_final (el : Element) : bool := el.1.2.
Definition element_thread_id (el : Element) : option string := el.2.
Definition element_content (el : Element) : string := el.1.1.

(** The responder runs of a turn: who, on which utterance, on which thread. *)
Fixpoint dispatched (evs : list Event) : list (Responder * string * AgentThread) :=
  match evs with
  | [] => []
  | Dispatched agent utterance thread :: evs' =>
      (agent, utterance, thread) :: dispatched evs'
  | Yielded _ _ _ :: evs' => dispatched evs'
  end.

(** ** Sequences of turns *)

Inductive Turn : Type :=
| BlockingTurn (w : World) (user_message : string) (thread_id : option string)
| StreamingTurn (w : World) (user_message : string) (thread_id : option string).

Definition run_turn (t : Turn) (s : SupervisorAgent) : SupervisorAgent :=
  match t with
  | BlockingTurn w user_message thread_id =>
      state_of (processMessage w user_message thread_id s)
  | StreamingTurn w user_message thread_id =>
      state_of (processMessageStream w user_message thread_id s)
  end.

Definition run_turns (ts : list Turn) (s : SupervisorAgent) : SupervisorAgent :=
  foldl (λ s t, run_turn t s) s ts.

(** ** Invariants of a computation *)

(** [respects I Q m]: run from a state in [I], [m] ends in a state in [I]
    (whether it returns or raises) and every event it logs is in [Q]. *)
Definition respects (I : SupervisorAgent -> Prop) (Q : Event -> Prop) {A} (m : M A) : Prop :=
  ∀ s, I s → I (state_of (m s)) ∧ Forall Q (events_of (m s)).

(** The utterance of every responder run logged is [original]. *)
Definition forwards (original : string) (ev : Event) : Prop :=
  match ev with
  | Dispatched _ utterance _ => utterance = original
  | Yielded _ _ _ => True
  end.

Definition remembers (original : string) (s : SupervisorAgent) : Prop :=
  self_user_message s = Some original.

(** Events of the streaming loop: elements that are not final and carry
    no thread id; responder runs. *)
Definition intermediate (ev : Event) : Prop :=
  match ev with
  | Dispatched _ _ _ => True
  | Yielded _ final thread_id => final = false ∧ thread_id = None
  end.

(** Both stores as they are in [s0]. *)
Definition same_stores (s0 s : SupervisorAgent) : Prop :=
  thread_store s = thread_store s0 ∧
  supervisor_thread_store s = supervisor_thread_store s0.

(** During a run: the stores stay as in [s0], [self.user_message] stays
    [original], [self.current_thread] stays set. *)
Definition running (s0 : SupervisorAgent) (original : string) (s : SupervisorAgent) : Prop :=
  same_stores s0 s ∧ remembers original s ∧ is_Some (self_current_thread s).

Definition relayed (original : string) (ev : Event) : Prop :=
  forwards original ev ∧ intermediate ev.

(** ** Views used in the statements *)

(** A result with which an interaction can end. *)
Inductive ends_with {C R} : Interaction C R -> R -> Prop :=
| ends_finish r : ends_with (Finish r) r
| ends_invoke tool generated_message k response r :
    ends_with (k response) r → ends_with (Invoke tool generated_message k) r
| ends_emit chunk k r : ends_with k r → ends_with (Emit chunk k) r.

(** The dialogue thread after the responder runs [ds], from [thread]. *)
Definition dialogue_after (w : World) (thread : AgentThread)
    (ds : list (Responder * string * AgentThread)) : AgentThread :=
  foldl (λ t d, (responder_run w d.1.1 d.1.2 t).2) thread ds.

(** Every responder run of [ds] was given the dialogue thread as the runs
    before it left it. *)
Fixpoint on_dialogue_thread (w : World) (thread : AgentThread)
    (ds : list (Responder * string * AgentThread)) : Prop :=
  match ds with
  | [] => True
  | (agent, utterance, t) :: ds' =>
      t = thread ∧ on_dialogue_thread w (responder_run w agent utterance t).2 ds'
  end.

(** The keys a turn adds are added to both stores. *)
Definition adds_to_both (s s' : SupervisorAgent) : Prop :=
  ∃ written : gset string,
    dom (thread_store s') = written ∪ dom (thread_store s) ∧
    dom (supervisor_thread_store s') = written ∪ dom (supervisor_thread_store s).

(** What forwarding the caller's utterance asks of a routing tool called
    for [tool] while the dialogue thread is [thread]: the responder, once
    built, is run on [original] and on [thread]; what it returns or raises
    goes back to the supervisor's run, and the thread it leaves is the
    dialogue thread from then on.  Gives that outcome, that thread and the
    responder run made, if any. *)
Definition forwarded_call (w : World) (original : string) (tool : Responder)
    (thread : AgentThread)
  : ToolOutcome * AgentThread * list (Responder * string * AgentThread) :=
  match build_af_agent w tool with
  | Some e => (ToolRaised e, thread, [])
  | None =>
      let '(response, thread') := responder_run w tool original thread in
      (response, thread', [(tool, original, thread)])
  end.

(** A run of the supervisor's agent in which every routing tool forwards
    [original]: how the run ends, the dialogue thread it leaves and the
    responder runs made, in order.  The messages the model wrote for its
    tool calls play no part. *)
Fixpoint forwarded_run {C R} (w : World) (original : string) (i : Interaction C R)
    (thread : AgentThread)
  : Outcome R * AgentThread * list (Responder * string * AgentThread) :=
  match i with
  | Finish r => (Returned r, thread, [])
  | Throw e => (Raised e, thread, [])
  | Invoke tool _ k =>
      let '(response, thread', ds) := forwarded_call w original tool thread in
      let '(o, thread'', ds') := forwarded_run w original (k response) thread' in
      (o, thread'', ds ++ ds')
  | Emit _ k => forwarded_run w original k thread
  end.


(** ** Views used in the further properties *)

(** Between [s] and [s'] only the lanes under [id] may differ. *)
Definition writes_only (id : string) (s s' : SupervisorAgent) : Prop :=
  ∀ id', id' ≠ id →
    thread_store s' !! id' = thread_store s !! id' ∧
    supervisor_thread_store s' !! id' = supervisor_thread_store s !! id'.

(** An element that is not final has some text. *)
Definition substantial (ev : Event) : Prop :=
  match ev with
  | Dispatched _ _ _ => True
  | Yielded content final _ => final = false → content ≠ ""
  end.

(** No responder is run. *)
Definition quiet (ev : Event) : Prop :=
  match ev with
  | Dispatched _ _ _ => False
  | Yielded _ _ _ => True
  end.


End Supervisor.


(** ** The raises the class does not handle *)

(** The two turns once more, with two things the embedding above leaves
    out.  First, [except Exception] (lines 118 and 131) lets through what
    is not an [Exception]: [asyncio.CancelledError], raised in the task at
    the [await] it is suspended on.  Second, the four
    [await ... .serialize()] of a turn may raise.  Both are given per turn
    by a record [Faults]; the model-backed calls stay those of [World]. *)
Module Async.

(** What [raise] can carry: an [Exception], or the [BaseException]
    [asyncio.CancelledError]. *)
Inductive BaseException : Type :=
| PyException (e : Exception)
| CancelledError.

Inductive Completion (A : Type) : Type :=
| Done (a : A)
| Raising (b : BaseException).
Arguments Done {A} a.
Arguments Raising {A} b.

(** The four serializations: lines 83 / 149, 84 / 150, 125 / 176 and
    126 / 177. *)
Inductive Site : Type :=
| new_thread_state
| new_supervisor_thread_state
| updated_thread_state
| updated_supervisor_thread_state.

(** [cancelled_after] is [Some n] when the task is cancelled while the
    supervisor's run is awaited, after [n] steps of the run (tool calls
    and chunks); [serialize_raises site] is [Some e] when the
    serialization at [site] raises [e]. *)
Record Faults : Type := {
  cancelled_after : option nat;
  serialize_raises : Site -> option Exception
}.

Definition faultless : Faults :=
  {| cancelled_after := None; serialize_raises := λ _, None |}.

Section Turns.
Context `{F : AgentFramework}.

Definition AM (A : Type) : Type :=
  SupervisorAgent -> Completion A * SupervisorAgent * list Event.

#[global] Instance AM_ret : MRet AM := λ A a s, (Done a, s, []).

#[global] Instance AM_bind : MBind AM := λ A B f m s,
  match m s with
  | (Done a, s', evs) =>
      let '(c, s'', evs') := f a s' in (c, s'', evs ++ evs')
  | (Raising b, s', evs) => (Raising b, s', evs)
  end.

Definition raising {A} (b : BaseException) : AM A := λ s, (Raising b, s, []).

(** A computation of the embedding above; what it raises is an
    [Exception]. *)
Definition lift {A} (m : M A) : AM A :=
  λ s,
  match m s with
  | (Returned a, s', evs) => (Done a, s', evs)
  | (Raised e, s', evs) => (Raising (PyException e), s', evs)
  end.

(** [try: body except Exception as e: handler(e)] *)
Definition try_except {A} (body : AM A) (handler : Exception -> AM A) : AM A :=
  λ s,
  match body s with
  | (Done a, s', evs) => (Done a, s', evs)
  | (Raising (PyException e), s', evs) =>
      let '(c, s'', evs') := handler e s' in (c, s'', evs ++ evs')
  | (Raising CancelledError, s', evs) => (Raising CancelledError, s', evs)
  end.

(** [await thread.serialize()] at [site] *)
Definition serialize_at (f : Faults) (site : Site) (thread : AgentThread)
  : AM ThreadState :=
  match serialize_raises f site with
  | Some e => raising (PyException e)
  | None => mret (serialize thread)
  end.

(** A run of the supervisor's agent, awaited by a task that is cancelled
    after [cancelled_after] steps, if ever. *)
Fixpoint interact {C R} (w : World) (body : C -> M unit) (i : Interaction C R)
    (cancelled_after : option nat) : AM R :=
  match cancelled_after with
  | Some 0 => raising CancelledError
  | _ =>
      match i with
      | Finish r => mret r
      | Throw e => raising (PyException e)
      | Invoke tool generated_message k =>
          response ← lift (invoke_tool (tools w tool generated_message));
          interact w body (k response) (pred <$> cancelled_after)
      | Emit chunk k =>
          lift (body chunk);;
          interact w body k (pred <$> cancelled_after)
      end
  end.

(** Thread creation or resumption (lines 143-168 and 76-95); only a new
    thread is serialized here. *)
Definition resolve_thread (f : Faults) (w : World) (thread_id : option string)
  : AM (string * AgentThread) :=
  let supervisor_resumed_thread := get_new_thread in
  match thread_id with
  | None =>
      lift (set_current_thread get_new_thread);;
      let processed_thread_id := uuid4 w in
      current_thread ← lift get_current_thread;
      serialized_thread ← serialize_at f new_thread_state current_thread;
      lift (set_thread_store processed_thread_id serialized_thread);;
      supervisor_serialized_thread ←
        serialize_at f new_supervisor_thread_state supervisor_resumed_thread;
      lift (set_supervisor_thread_store processed_thread_id supervisor_serialized_thread);;
      mret (processed_thread_id, supervisor_resumed_thread)
  | Some _ => lift (resolve_thread w thread_id)
  end.

(** Lines 176-177 and 125-126: each right-hand side is awaited before its
    store is written. *)
Definition update_thread_stores (f : Faults) (processed_thread_id : string)
    (supervisor_resumed_thread : AgentThread) : AM unit :=
  current_thread ← lift get_current_thread;
  serialized_thread ← serialize_at f updated_thread_state current_thread;
  lift (set_thread_store processed_thread_id serialized_thread);;
  supervisor_serialized_thread ←
    serialize_at f updated_supervisor_thread_state supervisor_resumed_thread;
  lift (set_supervisor_thread_store processed_thread_id supervisor_serialized_thread).

(** [processMessage] *)
Definition processMessage (f : Faults) (w : World) (user_message : string)
    (thread_id : option string) : AM (string * string) :=
  lift (_build_af_agent w);;
  '(processed_thread_id, supervisor_resumed_thread) ← resolve_thread f w thread_id;
  lift (set_user_message user_message);;
  '(response_text, supervisor_resumed_thread) ←
    interact w (λ chunk : Empty_set, match chunk with end)
             (agent_run w user_message supervisor_resumed_thread)
             (cancelled_after f);
  update_thread_stores f processed_thread_id supervisor_resumed_thread;;
  mret (response_text, processed_thread_id).

(** The inner [try] of [processMessageStream] (lines 110-122) *)
Definition stream_response (f : Faults) (w : World)
    (user_message processed_thread_id : string)
    (supervisor_resumed_thread : AgentThread) : AM (option AgentThread) :=
  try_except
    (thread ← interact w relay_chunk
                (agent_run_stream w user_message supervisor_resumed_thread)
                (cancelled_after f);
     mret (Some thread))
    (λ stream_error,
       lift (emit (Yielded (streaming_failed_message stream_error) true
                           (Some processed_thread_id)));;
       mret None).

(** [processMessageStream] *)
Definition processMessageStream (f : Faults) (w : World) (user_message : string)
    (thread_id : option string) : AM unit :=
  try_except
    (lift (_build_af_agent w);;
     '(processed_thread_id, supervisor_resumed_thread) ← resolve_thread f w thread_id;
     lift (set_user_message user_message);;
     if negb (has_run_stream w) then
       lift (emit (Yielded streaming_unsupported_message true (Some processed_thread_id)))
     else
       streamed ← stream_response f w user_message processed_thread_id
                    supervisor_resumed_thread;
       match streamed with
       | None => mret ()
       | Some supervisor_resumed_thread =>
           update_thread_stores f processed_thread_id supervisor_resumed_thread;;
           lift (emit (Yielded "" true (Some processed_thread_id)))
       end)
    (λ e, lift (emit (Yielded (apology_message e) true thread_id))).

(** Reading the result of a turn *)
Definition completion_of {A} (r : Completion A * SupervisorAgent * list Event)
  : Completion A := r.1.1.

Definition state_of {A} (r : Completion A * SupervisorAgent * list Event)
  : SupervisorAgent := r.1.2.

Definition events_of {A} (r : Completion A * SupervisorAgent * list Event)
  : list Event := r.2.

(** [respects I Q m], as above. *)
Definition respects (I : SupervisorAgent -> Prop) (Q : Event -> Prop) {A} (m : AM A)
  : Prop :=
  ∀ s, I s → I (state_of (m s)) ∧ Forall Q (events_of (m s)).

End Turns.

End Async.

(** ** A message-list framework and some worlds *)

Module Sample.

Inductive Role : Type := User | Assistant.

Definition Message : Type := Role * string.

(** Threads that are the list of their messages; a serialized thread is
    the same list, and loading a state adds its messages to the thread. *)
#[export] Instance message_lists : AgentFramework := {|
  AgentThread := list Message;
  ThreadState := list Message;
  get_new_thread := [];
  serialize := λ t, t;
  update_from_thread_state := λ t st, t ++ st
|}.

Definition balance_text : string := "Your balance is 100 EUR".

(** A responder that answers [balance_text] and keeps the exchange in the
    thread it was given. *)
Definition answering (agent : Responder) (utterance : string) (t : list Message)
  : ToolOutcome * list Message :=
  (ToolReturned balance_text, t ++ [(User, utterance); (Assistant, balance_text)]).

(** A supervisor that routes to the account agent with a message of its
    own and relays the answer; its thread keeps the caller's message and
    its own reply. *)
Definition relaying_run (user_message : string) (t : list Message)
  : Interaction Empty_set (string * list Message) :=
  Invoke AccountAgent "The customer wants to know the account balance"
    (λ response,
       match response with
       | ToolReturned text =>
           Finish (text, t ++ [(User, user_message); (Assistant, text)])
       | ToolRaised e => Throw e
       end).

Definition relaying_run_stream (user_message : string) (t : list Message)
  : Interaction Chunk (list Message) :=
  Invoke AccountAgent "The customer wants to know the account balance"
    (λ response,
       match response with
       | ToolReturned text =>
           Emit {| chunk_text := Some text |}
             (Finish (t ++ [(User, user_message); (Assistant, text)]))
       | ToolRaised e => Throw e
       end).

Definition relaying : World := {|
  uuid4 := "3f2b8c1e-5d4a-4c6b-9e7f-0a1b2c3d4e5f";
  create_agent := None;
  has_run_stream := true;
  agent_run := relaying_run;
  agent_run_stream := relaying_run_stream;
  build_af_agent := λ _, None;
  responder_has_run_stream := λ _, false;
  responder_run := answering
|}.


(** The model call fails: [run] raises, [run_stream] raises after one
    chunk. *)
Definition failing : World := {|
  uuid4 := "3f2b8c1e-5d4a-4c6b-9e7f-0a1b2c3d4e5f";
  create_agent := None;
  has_run_stream := true;
  agent_run := λ _ _, Throw (OtherException "connection reset");
  agent_run_stream := λ _ _,
    Emit {| chunk_text := Some "Your" |} (Throw (OtherException "connection reset"));
  build_af_agent := λ _, None;
  responder_has_run_stream := λ _, true;
  responder_run := answering
|}.

(** The supervisor's agent has no [run_stream]. *)
Definition blocking_only : World := {|
  uuid4 := "3f2b8c1e-5d4a-4c6b-9e7f-0a1b2c3d4e5f";
  create_agent := None;
  has_run_stream := false;
  agent_run := relaying_run;
  agent_run_stream := relaying_run_stream;
  build_af_agent := λ _, None;
  responder_has_run_stream := λ _, true;
  responder_run := answering
|}.

(** The payment agent cannot be built (its servers are unreachable); the
    supervisor calls it and apologises. *)
Definition payment_unreachable : World := {|
  uuid4 := "3f2b8c1e-5d4a-4c6b-9e7f-0a1b2c3d4e5f";
  create_agent := None;
  has_run_stream := true;
  agent_run := λ user_message t,
    Invoke PaymentAgent "The customer wants to pay a bill"
      (λ _, Finish ("Payments are not available right now.",
                    t ++ [(User, user_message);
                          (Assistant, "Payments are not available right now.")]));
  agent_run_stream := λ user_message t,
    Invoke PaymentAgent "The customer wants to pay a bill"
      (λ _, Emit {| chunk_text := Some "Payments are not available right now." |}
              (Finish (t ++ [(User, user_message);
                             (Assistant, "Payments are not available right now.")])));
  build_af_agent := λ agent,
    match agent with
    | PaymentAgent => Some (OtherException "All connection attempts failed")
    | _ => None
    end;
  responder_has_run_stream := λ _, true;
  responder_run := answering
|}.


(** The supervisor's agent cannot be built. *)
Definition unbuildable : World := {|
  uuid4 := "3f2b8c1e-5d4a-4c6b-9e7f-0a1b2c3d4e5f";
  create_agent := Some (OtherException "Azure OpenAI endpoint is not configured");
  has_run_stream := true;
  agent_run := relaying_run;
  agent_run_stream := relaying_run_stream;
  build_af_agent := λ _, None;
  responder_has_run_stream := λ _, true;
  responder_run := answering
|}.

(** The task is cancelled after two steps of the run. *)
Definition cancelled_in_stream : Async.Faults :=
  {| Async.cancelled_after := Some 2; Async.serialize_raises := λ _, None |}.

(** The task is cancelled after one step of the run. *)
Definition cancelled_after_chunk : Async.Faults :=
  {| Async.cancelled_after := Some 1; Async.serialize_raises := λ _, None |}.

(** The serialization of the updated dialogue thread raises. *)
Definition unserializable : Async.Faults :=
  {| Async.cancelled_after := None;
     Async.serialize_raises := λ site,
       match site with
       | Async.updated_thread_state =>
           Some (OtherException "Object of type datetime is not JSON serializable")
       | _ => None
       end |}.

(** A state with one session, ["s1"], after one exchange. *)
Definition one_session : SupervisorAgent :=
  {| thread_store := {["s1" := [(User, "Hi"); (Assistant, "Hello")]]};
     supervisor_thread_store := {["s1" := [(User, "Hi"); (Assistant, "Hello")]]};
     self_current_thread := None;
     self_user_message := None |}.

(** A state where ["s1"] has its dialogue lane only. *)
Definition one_lane : SupervisorAgent :=
  {| thread_store := {["s1" := [(User, "Hi"); (Assistant, "Hello")]]};
     supervisor_thread_store := ∅;
     self_current_thread := None;
     self_user_message := None |}.

End Sample.

(** ** The payment tool *)

Module PaymentTool.

(** The keyword arguments of [Payment(...)]. *)
Record Payment : Type := {
  accountId : string;
  amount : float;
  description : string;
  recipientName : option string;
  recipientBankCode : option string;
  paymentMethodId : string;
  paymentType : option string;
  timestamp : string
}.

Section Tool.

(** [models.Payment] and [services.PaymentService] are imported by the
    module.  [Payment_init p] is [Some e] when the constructor refuses its
    arguments by raising [e]; [PaymentService_process_payment] is the
    service call on the service's state, returning (a value the tool
    drops) or raising. *)
Variable Payment_init : Payment -> option Exception.
Variable PaymentService : Type.
Variable PaymentService_process_payment :
  Payment -> PaymentService -> Outcome unit * PaymentService.

(** [process_payment], registered as the tool [processPayment]. *)
Definition process_payment
    (account_id : string) (amount : float) (description : string)
    (payment_method_id : string) (timestamp : string)
    (recipient_name recipient_bank_code payment_type : option string)
    (payment_service : PaymentService)
  : Outcome (gmap string string) * PaymentService :=
  let payment_obj :=
    {| accountId := account_id;
       amount := amount;
       description := description;
       recipientName := recipient_name;
       recipientBankCode := recipient_bank_code;
       paymentMethodId := payment_method_id;
       paymentType := payment_type;
       timestamp := timestamp |} in
  match Payment_init payment_obj with
  | Some e => (Raised e, payment_service)
  | None =>
      match PaymentService_process_payment payment_obj payment_service with
      | (Returned _, payment_service') =>
          (Returned {["status" := "ok"]}, payment_service')
      | (Raised e, payment_service') => (Raised e, payment_service')
      end
  end.

End Tool.

(** A service that records the payments it is given, behind a
    constructor that takes every argument. *)
Definition recording (p : Payment) (ledger : list Payment)
  : Outcome unit * list Payment :=
  (Returned (), ledger ++ [p]).

End PaymentTool.

(** ** The payment agent *)

Module PaymentAgentClass.

(** [MCPStreamableHTTPTool(name=..., url=...)] *)
Record MCPStreamableHTTPTool : Type := { name : string; url : string }.

(** What [create_agent] is given as [tools]. *)
Inductive Tool : Type :=
| MCPServer (server : MCPStreamableHTTPTool)
| scan_invoice_plugin.

(** The keyword arguments of [create_agent]. *)
Record ChatAgent : Type := {
  agent_instructions : string;
  agent_name : string;
  agent_tools : list Tool
}.

(** The server URLs kept by [PaymentAgent.__init__]. *)
Record PaymentAgent : Type := {
  account_mcp_server_url : string;
  transaction_mcp_server_url : string;
  payment_mcp_server_url : string
}.

Section Build.

(** [instructions_format user_mail current_date_time] is
    [PaymentAgent.instructions.format(user_mail=..., current_date_time=...)];
    [connect server connected] is [Some e] when [await server.connect()]
    raises [e], the clients in [connected] being connected already;
    [create_agent agent] is [Some e] when the client refuses to create the
    agent by raising [e]. *)
Variable instructions_format : string -> string -> string.
Variable connect : MCPStreamableHTTPTool -> list MCPStreamableHTTPTool -> option Exception.
Variable create_agent : ChatAgent -> option Exception.

(** The three clients of [build_af_agent], in the order it connects them. *)
Definition mcp_servers (self : PaymentAgent) : list MCPStreamableHTTPTool :=
  [ {| name := "Account MCP server client"; url := account_mcp_server_url self |};
    {| name := "Transaction MCP server client"; url := transaction_mcp_server_url self |};
    {| name := "Payment MCP server client"; url := payment_mcp_server_url self |} ].

(** [await server.connect()] on the list of connected clients. *)
Definition connect_server (server : MCPStreamableHTTPTool)
    (connected : list MCPStreamableHTTPTool)
  : Outcome unit * list MCPStreamableHTTPTool :=
  match connect server connected with
  | Some e => (Raised e, connected)
  | None => (Returned (), connected ++ [server])
  end.

(** [build_af_agent]; [now] is
    [datetime.now().strftime("%Y-%m-%d %H:%M:%S")]. *)
Definition build_af_agent (self : PaymentAgent) (now : string)
    (connected : list MCPStreamableHTTPTool)
  : Outcome ChatAgent * list MCPStreamableHTTPTool :=
  let user_mail := "bob.user@contoso.com" in
  let current_date_time := now in
  let full_instruction := instructions_format user_mail current_date_time in
  let account_mcp_server :=
    {| name := "Account MCP server client"; url := account_mcp_server_url self |} in
  match connect_server account_mcp_server connected with
  | (Raised e, connected) => (Raised e, connected)
  | (Returned _, connected) =>
      let transaction_mcp_server :=
        {| name := "Transaction MCP server client";
           url := transaction_mcp_server_url self |} in
      match connect_server transaction_mcp_server connected with
      | (Raised e, connected) => (Raised e, connected)
      | (Returned _, connected) =>
          let payment_mcp_server :=
            {| name := "Payment MCP server client";
               url := payment_mcp_server_url self |} in
          match connect_server payment_mcp_server connected with
          | (Raised e, connected) => (Raised e, connected)
          | (Returned _, connected) =>
              let agent :=
                {| agent_instructions := full_instruction;
                   agent_name := "PaymentAgent";
                   agent_tools := [MCPServer account_mcp_server;
                                   MCPServer transaction_mcp_server;
                                   MCPServer payment_mcp_server;
                                   scan_invoice_plugin] |} in
              match create_agent agent with
              | Some e => (Raised e, connected)
              | None => (Returned agent, connected)
              end
          end
      end
  end.

End Build.

(** A network on which the payment server refuses connections. *)
Definition payment_server_down (server : MCPStreamableHTTPTool)
    (connected : list MCPStreamableHTTPTool) : option Exception :=
  if decide (name server = "Payment MCP server client")
  then Some (OtherException "All connection attempts failed")
  else None.

Definition local_servers : PaymentAgent :=
  {| account_mcp_server_url := "http://localhost:8070/mcp";
     transaction_mcp_server_url := "http://localhost:8071/mcp";
     payment_mcp_server_url := "http://localhost:8072/mcp" |}.

End PaymentAgentClass.

(** * Properties *)

(** ** The event log *)

Section Events.
Context `{F : AgentFramework}.

Lemma yielded_app (evs1 evs2 : list Event) :
  yielded (evs1 ++ evs2) = yielded evs1 ++ yielded evs2.
Proof.
  induction evs1 as [|[agent utterance t|content final id] evs1 IH]; simpl;
    by rewrite ?IH.
Qed.

Lemma dispatched_app (evs1 evs2 : list Event) :
  dispatched (evs1 ++ evs2) = dispatched evs1 ++ dispatched evs2.
Proof.
  induction evs1 as [|[agent utterance t|content final id] evs1 IH]; simpl;
    by rewrite ?IH.
Qed.

Lemma dispatched_forwards (original : string) (evs : list Event) :
  Forall (forwards original) evs →
  Forall (λ d, d.1.2 = original) (dispatched evs).
Proof.
  induction 1 as [|[agent utterance t|content final id] evs Hev _ IH]; simpl;
    [constructor | by constructor | done].
Qed.

Lemma yielded_intermediate (evs : list Event) :
  Forall intermediate evs →
  Forall (λ el, is_final el = false ∧ element_thread_id el = None) (yielded evs).
Proof.
  induction 1 as [|[agent utterance t|content final id] evs Hev _ IH]; simpl;
    [constructor | done | by constructor].
Qed.

End Events.

(** ** Rules for [respects] *)

Section Respects.
Context `{F : AgentFramework}.
Variable I : SupervisorAgent -> Prop.
Variable Q : Event -> Prop.

Lemma respects_ret {A} (a : A) : respects I Q (mret a).
Proof. intros s Hs. split; [exact Hs | constructor]. Qed.

Lemma respects_raise {A} (e : Exception) : respects I Q (raise (A:=A) e).
Proof. intros s Hs. split; [exact Hs | constructor]. Qed.

Lemma respects_emit (ev : Event) : Q ev → respects I Q (emit ev).
Proof. intros Hev s Hs. split; [exact Hs | by repeat constructor]. Qed.

Lemma respects_bind {A B} (m : M A) (f : A -> M B) :
  respects I Q m → (∀ a, respects I Q (f a)) → respects I Q (m ≫= f).
Proof.
  intros Hm Hf s Hs. destruct (Hm s Hs) as [Hs' Hevs].
  unfold mbind, M_bind, state_of, events_of in *.
  destruct (m s) as [[[a|e] s'] evs]; simpl in *; [|done].
  destruct (Hf a s' Hs') as [Hs'' Hevs'].
  unfold state_of, events_of in *.
  destruct (f a s') as [[o s''] evs']; simpl in *.
  split; [done | by apply Forall_app].
Qed.

Lemma respects_try_except {A} (body : M A) (handler : Exception -> M A) :
  respects I Q body → (∀ e, respects I Q (handler e)) →
  respects I Q (try_except body handler).
Proof.
  intros Hm Hf s Hs. destruct (Hm s Hs) as [Hs' Hevs].
  unfold try_except, state_of, events_of in *.
  destruct (body s) as [[[a|e] s'] evs]; simpl in *; [done|].
  destruct (Hf e s' Hs') as [Hs'' Hevs'].
  unfold state_of, events_of in *.
  destruct (handler e s') as [[o s''] evs']; simpl in *.
  split; [done | by apply Forall_app].
Qed.

Lemma respects_invoke_tool (tool : M string) :
  respects I Q tool → respects I Q (invoke_tool tool).
Proof.
  intros Ht. apply respects_try_except.
  - apply respects_bind; [done | intros; apply respects_ret].
  - intros; apply respects_ret.
Qed.

Lemma respects_interact {C R} (w : World) (body : C -> M unit) (i : Interaction C R) :
  (∀ tool generated_message, respects I Q (tools w tool generated_message)) →
  (∀ chunk, respects I Q (body chunk)) →
  respects I Q (interact w body i).
Proof.
  intros Ht Hb. induction i as [r|e|tool g k IH|c k IH]; simpl.
  - apply respects_ret.
  - apply respects_raise.
  - apply respects_bind; [by apply respects_invoke_tool | done].
  - apply respects_bind; [done | by intros].
Qed.

End Respects.

(** ** What a run of the supervisor's agent keeps *)

Section Runs.
Context `{F : AgentFramework}.

Lemma route_to_running w s0 original agent generated_message :
  respects (running s0 original) (relayed original)
    (route_to w agent generated_message).
Proof.
  intros s ([Hst1 Hst2] & Hmsg & [t Ht]). unfold remembers in Hmsg.
  unfold running, same_stores, remembers, is_Some.
  unfold route_to, get_user_message, get_current_thread, state_of, events_of.
  unfold mbind, M_bind, get; simpl.
  destruct (build_af_agent w agent); simpl.
  { split; [|constructor]. by repeat split; eauto. }
  rewrite Hmsg; simpl; rewrite Ht; simpl.
  destruct (responder_run w agent original t) as [[text|e] t']; simpl.
  all: split; [by repeat split; eauto | by repeat constructor].
Qed.

Lemma tools_running w s0 original tool generated_message :
  respects (running s0 original) (relayed original)
    (tools w tool generated_message).
Proof. destruct tool; apply route_to_running. Qed.

Lemma relay_chunk_running s0 original chunk :
  respects (running s0 original) (relayed original) (relay_chunk chunk).
Proof.
  unfold relay_chunk. destruct (chunk_text chunk) as [content|];
    [|apply respects_ret].
  case_decide; [apply respects_ret|].
  apply respects_emit. by repeat split.
Qed.

Lemma run_running w s0 original message t :
  respects (running s0 original) (relayed original)
    (interact w (λ chunk : Empty_set, match chunk with end) (agent_run w message t)).
Proof.
  apply respects_interact; [intros; apply tools_running | intros []].
Qed.

Lemma run_stream_running w s0 original message t :
  respects (running s0 original) (relayed original)
    (interact w relay_chunk (agent_run_stream w message t)).
Proof.
  apply respects_interact;
    [intros; apply tools_running | intros; apply relay_chunk_running].
Qed.

End Runs.

(** ** Thread resolution *)

Section Resolution.
Context `{F : AgentFramework}.

Lemma resolve_thread_new w s :
  resolve_thread w None s =
  (Returned (uuid4 w, get_new_thread),
   with_supervisor_thread_store (uuid4 w) (serialize get_new_thread)
     (with_thread_store (uuid4 w) (serialize get_new_thread)
        (with_current_thread get_new_thread s)),
   []).
Proof. reflexivity. Qed.

Lemma resolve_thread_resumed w id s st sst :
  thread_store s !! id = Some st →
  supervisor_thread_store s !! id = Some sst →
  resolve_thread w (Some id) s =
  (Returned (id, update_from_thread_state get_new_thread sst),
   with_current_thread (update_from_thread_state get_new_thread st) s,
   []).
Proof.
  intros Hst Hsst. unfold resolve_thread, mbind, M_bind, get; simpl.
  by rewrite Hst, Hsst.
Qed.

Lemma resolve_thread_missing w id s :
  thread_store s !! id = None ∨ supervisor_thread_store s !! id = None →
  resolve_thread w (Some id) s =
  (Raised (thread_not_found id), s, []).
Proof.
  intros H. unfold resolve_thread, mbind, M_bind, get; simpl.
  destruct H as [-> | H]; [done|].
  rewrite H. by destruct (thread_store s !! id).
Qed.

Lemma resolve_thread_returned w thread_id s processed_thread_id t s1 evs :
  resolve_thread w thread_id s = (Returned (processed_thread_id, t), s1, evs) →
  evs = [] ∧
  processed_thread_id = default (uuid4 w) thread_id ∧
  is_Some (self_current_thread s1) ∧
  is_Some (thread_store s1 !! processed_thread_id) ∧
  is_Some (supervisor_thread_store s1 !! processed_thread_id) ∧
  dom (thread_store s1) = {[processed_thread_id]} ∪ dom (thread_store s) ∧
  dom (supervisor_thread_store s1) =
    {[processed_thread_id]} ∪ dom (supervisor_thread_store s).
Proof.
  destruct thread_id as [id|].
  - destruct (thread_store s !! id) as [st|] eqn:Hst;
      [destruct (supervisor_thread_store s !! id) as [sst|] eqn:Hsst|].
    + rewrite (resolve_thread_resumed _ _ _ _ _ Hst Hsst).
      intros ?; simplify_eq; simpl. rewrite Hst, Hsst.
      apply (elem_of_dom_2 (D:=gset string)) in Hst, Hsst.
      split_and!; eauto;
        symmetry; by apply subseteq_union_1_L, singleton_subseteq_l.
    + rewrite resolve_thread_missing by auto. done.
    + rewrite resolve_thread_missing by auto. done.
  - rewrite resolve_thread_new. intros ?; simplify_eq; simpl.
    rewrite !lookup_insert_eq, !dom_insert_L. split_and!; eauto.
Qed.

Lemma resolve_thread_raised w thread_id s e s1 evs :
  resolve_thread w thread_id s = (Raised e, s1, evs) →
  s1 = s ∧ evs = [] ∧
  ∃ id, thread_id = Some id ∧
        e = thread_not_found id ∧
        (thread_store s !! id = None ∨ supervisor_thread_store s !! id = None).
Proof.
  destruct thread_id as [id|]; [|by rewrite resolve_thread_new].
  destruct (thread_store s !! id) as [st|] eqn:Hst;
    [destruct (supervisor_thread_store s !! id) as [sst|] eqn:Hsst|].
  - by rewrite (resolve_thread_resumed _ _ _ _ _ Hst Hsst).
  - rewrite resolve_thread_missing by auto. intros ?; simplify_eq. eauto 10.
  - rewrite resolve_thread_missing by auto. intros ?; simplify_eq. eauto 10.
Qed.

End Resolution.

(** ** The two turns, stage by stage *)

Section Stages.
Context `{F : AgentFramework}.

Lemma processMessage_not_built w user_message thread_id s e :
  create_agent w = Some e →
  processMessage w user_message thread_id s = (Raised e, s, []).
Proof.
  intros Hc. unfold processMessage, _build_af_agent, mbind, M_bind.
  by rewrite Hc.
Qed.

Lemma processMessage_unresolved w user_message thread_id s e s1 evs1 :
  create_agent w = None →
  resolve_thread w thread_id s = (Raised e, s1, evs1) →
  processMessage w user_message thread_id s = (Raised e, s1, evs1).
Proof.
  intros Hc Hr. unfold processMessage, _build_af_agent, mbind, M_bind.
  rewrite Hc; simpl. by rewrite Hr.
Qed.

Lemma processMessage_resolved w user_message thread_id s processed_thread_id t s1 :
  create_agent w = None →
  resolve_thread w thread_id s = (Returned (processed_thread_id, t), s1, []) →
  processMessage w user_message thread_id s =
  match interact w (λ chunk : Empty_set, match chunk with end)
          (agent_run w user_message t) (with_user_message user_message s1) with
  | (Returned (response_text, t'), s2, evs) =>
      match self_current_thread s2 with
      | Some current_thread =>
          (Returned (response_text, processed_thread_id),
           with_supervisor_thread_store processed_thread_id (serialize t')
             (with_thread_store processed_thread_id (serialize current_thread) s2),
           evs)
      | None =>
          (Raised (AttributeError
                     "'SupervisorAgent' object has no attribute 'current_thread'"),
           s2, evs)
      end
  | (Raised e, s2, evs) => (Raised e, s2, evs)
  end.
Proof.
  intros Hc Hr. unfold processMessage, _build_af_agent, mbind, M_bind.
  rewrite Hc; simpl. rewrite Hr; simpl.
  destruct (interact _ _ _ _) as [[[[response_text t']|e] s2] evs]; [|done].
  unfold update_thread_stores, get_current_thread, mbind, M_bind, get; simpl.
  destruct (self_current_thread s2); simpl; by rewrite ?app_nil_r.
Qed.

Lemma processMessageStream_not_built w user_message thread_id s e :
  create_agent w = Some e →
  processMessageStream w user_message thread_id s =
  (Returned (), s, [Yielded (apology_message e) true thread_id]).
Proof.
  intros Hc. unfold processMessageStream, try_except, _build_af_agent, mbind, M_bind.
  by rewrite Hc.
Qed.

Lemma processMessageStream_unresolved w user_message thread_id s e s1 evs1 :
  create_agent w = None →
  resolve_thread w thread_id s = (Raised e, s1, evs1) →
  processMessageStream w user_message thread_id s =
  (Returned (), s1, evs1 ++ [Yielded (apology_message e) true thread_id]).
Proof.
  intros Hc Hr. unfold processMessageStream, try_except, _build_af_agent, mbind, M_bind.
  rewrite Hc; simpl. by rewrite Hr.
Qed.

Lemma processMessageStream_unsupported w user_message thread_id s
    processed_thread_id t s1 :
  create_agent w = None →
  resolve_thread w thread_id s = (Returned (processed_thread_id, t), s1, []) →
  has_run_stream w = false →
  processMessageStream w user_message thread_id s =
  (Returned (), with_user_message user_message s1,
   [Yielded streaming_unsupported_message true (Some processed_thread_id)]).
Proof.
  intros Hc Hr Hs. unfold processMessageStream, try_except, _build_af_agent, mbind, M_bind.
  rewrite Hc; simpl. rewrite Hr; simpl. by rewrite Hs.
Qed.

Lemma processMessageStream_streamed w user_message thread_id s
    processed_thread_id t s1 :
  create_agent w = None →
  resolve_thread w thread_id s = (Returned (processed_thread_id, t), s1, []) →
  has_run_stream w = true →
  processMessageStream w user_message thread_id s =
  match interact w relay_chunk (agent_run_stream w user_message t)
          (with_user_message user_message s1) with
  | (Returned t', s2, evs) =>
      match self_current_thread s2 with
      | Some current_thread =>
          (Returned (),
           with_supervisor_thread_store processed_thread_id (serialize t')
             (with_thread_store processed_thread_id (serialize current_thread) s2),
           evs ++ [Yielded "" true (Some processed_thread_id)])
      | None =>
          (Returned (), s2,
           evs ++ [Yielded
                     (apology_message
                        (AttributeError
                           "'SupervisorAgent' object has no attribute 'current_thread'"))
                     true thread_id])
      end
  | (Raised e, s2, evs) =>
      (Returned (), s2,
       evs ++ [Yielded (streaming_failed_message e) true (Some processed_thread_id)])
  end.
Proof.
  intros Hc Hr Hs.
  unfold processMessageStream, try_except, _build_af_agent, mbind, M_bind.
  rewrite Hc; simpl. rewrite Hr; simpl. rewrite Hs; simpl.
  unfold stream_response, try_except, mbind, M_bind; simpl.
  destruct (interact _ _ _ _) as [[[t'|e] s2] evs]; simpl.
  - unfold update_thread_stores, get_current_thread, mbind, M_bind, get; simpl.
    destruct (self_current_thread s2); simpl; by rewrite ?app_nil_r.
  - by rewrite ?app_nil_r.
Qed.

End Stages.

(** ** The events of a turn *)

Section TurnEvents.
Context `{F : AgentFramework}.

Lemma resolved_running w thread_id s processed_thread_id t s1 evs1 user_message :
  resolve_thread w thread_id s = (Returned (processed_thread_id, t), s1, evs1) →
  running (with_user_message user_message s1) user_message
    (with_user_message user_message s1).
Proof.
  intros Hr. apply resolve_thread_returned in Hr as (_ & _ & Hcur & _).
  by repeat split.
Qed.

Lemma processMessage_events w user_message thread_id s :
  Forall (relayed user_message)
    (events_of (processMessage w user_message thread_id s)).
Proof.
  destruct (create_agent w) as [e|] eqn:Hc.
  { rewrite (processMessage_not_built _ _ _ _ _ Hc). constructor. }
  destruct (resolve_thread w thread_id s) as [[[[id t]|e] s1] evs1] eqn:Hr.
  - pose proof (resolved_running _ _ _ _ _ _ _ user_message Hr) as Hrun.
    apply resolve_thread_returned in Hr as Hr'. destruct Hr' as [-> _].
    rewrite (processMessage_resolved _ _ _ _ _ _ _ Hc Hr).
    destruct (run_running w _ _ user_message t _ Hrun) as [_ Hevs].
    unfold events_of in *.
    destruct (interact _ _ _ _) as [[[[response_text t']|e] s2] evs]; [|done].
    by destruct (self_current_thread s2).
  - apply resolve_thread_raised in Hr as Hr'. destruct Hr' as (_ & -> & _).
    rewrite (processMessage_unresolved _ _ _ _ _ _ _ Hc Hr). constructor.
Qed.

(** A streaming turn logs events of the loop and then one final element,
    whose thread id is the caller's, or the new one when the caller gave
    none and the agent was built. *)
Lemma processMessageStream_events w user_message thread_id s :
  ∃ evs content,
    events_of (processMessageStream w user_message thread_id s) =
      evs ++ [Yielded content true
                (match thread_id with
                 | Some id => Some id
                 | None => match create_agent w with
                           | None => Some (uuid4 w)
                           | Some _ => None
                           end
                 end)] ∧
    Forall (relayed user_message) evs.
Proof.
  destruct (create_agent w) as [e|] eqn:Hc.
  { rewrite (processMessageStream_not_built _ _ _ _ _ Hc).
    exists [], (apology_message e). split; [by destruct thread_id | constructor]. }
  destruct (resolve_thread w thread_id s) as [[[[id t]|e] s1] evs1] eqn:Hr.
  - pose proof (resolved_running _ _ _ _ _ _ _ user_message Hr) as Hrun.
    apply resolve_thread_returned in Hr as Hr'. destruct Hr' as (-> & Hid & _).
    assert (Some id = match thread_id with Some id' => Some id' | None => Some (uuid4 w) end)
      as Hfinal by (rewrite Hid; by destruct thread_id).
    destruct (has_run_stream w) eqn:Hs.
    + rewrite (processMessageStream_streamed _ _ _ _ _ _ _ Hc Hr Hs).
      destruct (run_stream_running w _ _ user_message t _ Hrun)
        as [(_ & _ & [current_thread Hcur]) Hevs].
      unfold events_of, state_of in *.
      destruct (interact _ _ _ _) as [[[t'|e] s2] evs]; simpl in *.
      * rewrite Hcur; simpl. rewrite Hfinal. eauto.
      * rewrite Hfinal. eauto.
    + rewrite (processMessageStream_unsupported _ _ _ _ _ _ _ Hc Hr Hs); simpl.
      rewrite Hfinal. exists [], streaming_unsupported_message.
      split; [done | constructor].
  - apply resolve_thread_raised in Hr as Hr'.
    destruct Hr' as (_ & -> & id & -> & _).
    rewrite (processMessageStream_unresolved _ _ _ _ _ _ _ Hc Hr); simpl.
    exists [], (apology_message e). split; [done | constructor].
Qed.

End TurnEvents.

(** ** The two threads of a run *)

Section Threads.
Context `{F : AgentFramework}.

(** A tool call runs its responder on the dialogue thread and leaves the
    responder's thread there, or runs nothing and leaves the state. *)
Lemma invoke_tool_thread w tool generated_message s current_thread :
  self_current_thread s = Some current_thread →
  let r := invoke_tool (tools w tool generated_message) s in
  (∃ response, result_of r = Returned response) ∧
  self_current_thread (state_of r) =
    Some (dialogue_after w current_thread (dispatched (events_of r))) ∧
  on_dialogue_thread w current_thread (dispatched (events_of r)).
Proof.
  intros Hcur.
  assert (tools w tool generated_message = route_to w tool generated_message)
    as -> by by destruct tool.
  unfold invoke_tool, try_except, route_to, get_user_message, get_current_thread.
  unfold result_of, state_of, events_of, mbind, M_bind, get; simpl.
  destruct (build_af_agent w tool); simpl; [by eauto|].
  destruct (self_user_message s) as [original|]; simpl; [|by eauto].
  rewrite Hcur; simpl.
  destruct (responder_run w tool original current_thread) as [[text|e] t'] eqn:Hrun;
    simpl; rewrite Hrun; simpl; by eauto.
Qed.

Lemma interact_threads {C R} w (body : C -> M unit) (i : Interaction C R) :
  (∀ chunk s, ∃ evs, body chunk s = (Returned (), s, evs) ∧ dispatched evs = []) →
  ∀ s current_thread,
    self_current_thread s = Some current_thread →
    let r := interact w body i s in
    self_current_thread (state_of r) =
      Some (dialogue_after w current_thread (dispatched (events_of r))) ∧
    on_dialogue_thread w current_thread (dispatched (events_of r)) ∧
    match result_of r with
    | Returned x => ends_with i x
    | Raised _ => True
    end.
Proof.
  intros Hbody.
  induction i as [x|e|tool g k IH|chunk k IH]; intros s current_thread Hcur; simpl.
  - split_and!; [done | done | constructor].
  - done.
  - destruct (invoke_tool_thread w tool g s current_thread Hcur)
      as ([response Hres] & Hcur' & Hon).
    unfold mbind, M_bind, result_of, state_of, events_of in *.
    destruct (invoke_tool _ s) as [[o s'] evs]; simpl in *. subst o.
    destruct (IH response s' _ Hcur') as (Hcur'' & Hon' & Hend).
    destruct (interact w body (k response) s') as [[o s''] evs']; simpl in *.
    rewrite dispatched_app. unfold dialogue_after in *. rewrite foldl_app.
    split_and!; [done | | by destruct o; [econstructor|]].
    clear -Hon Hon'. revert current_thread Hon Hon'.
    induction (dispatched evs) as [|[[agent utterance] t] ds IHds];
      intros current_thread Hon Hon'; simpl in *; [done|].
    destruct Hon as [-> Hon]. split; [done|]. by apply IHds.
  - destruct (Hbody chunk s) as (evs & Hb & Hnone).
    unfold mbind, M_bind, result_of, state_of, events_of in *.
    rewrite Hb; simpl.
    destruct (IH s _ Hcur) as (Hcur'' & Hon' & Hend).
    destruct (interact w body k s) as [[o s''] evs']; simpl in *.
    rewrite dispatched_app, Hnone; simpl.
    split_and!; [done | done | by destruct o; [econstructor|]].
Qed.

Lemma relay_chunk_silent chunk s :
  ∃ evs, relay_chunk chunk s = (Returned (), s, evs) ∧ dispatched evs = [].
Proof.
  unfold relay_chunk. destruct (chunk_text chunk) as [content|]; [|by eexists].
  case_decide; by eexists.
Qed.

(** A tool call is the forwarded call. *)
Lemma invoke_tool_forwarded w original tool generated_message s current_thread :
  self_user_message s = Some original →
  self_current_thread s = Some current_thread →
  let r := invoke_tool (tools w tool generated_message) s in
  let ref := forwarded_call w original tool current_thread in
  result_of r = Returned ref.1.1 ∧
  self_current_thread (state_of r) = Some ref.1.2 ∧
  self_user_message (state_of r) = Some original ∧
  dispatched (events_of r) = ref.2.
Proof.
  intros Hmsg Hcur.
  assert (tools w tool generated_message = route_to w tool generated_message)
    as -> by by destruct tool.
  unfold invoke_tool, try_except, route_to, get_user_message, get_current_thread.
  unfold forwarded_call, result_of, state_of, events_of, mbind, M_bind, get; simpl.
  destruct (build_af_agent w tool); simpl; [done|].
  rewrite Hmsg; simpl. rewrite Hcur; simpl.
  by destruct (responder_run w tool original current_thread) as [[text|e] t'].
Qed.

Lemma interact_forwarded {C R} w original (body : C -> M unit) (i : Interaction C R) :
  (∀ chunk s, ∃ evs, body chunk s = (Returned (), s, evs) ∧ dispatched evs = []) →
  ∀ s current_thread,
    self_user_message s = Some original →
    self_current_thread s = Some current_thread →
    let r := interact w body i s in
    let ref := forwarded_run w original i current_thread in
    result_of r = ref.1.1 ∧
    self_current_thread (state_of r) = Some ref.1.2 ∧
    dispatched (events_of r) = ref.2.
Proof.
  intros Hbody.
  induction i as [x|e|tool g k IH|chunk k IH]; intros s current_thread Hmsg Hcur; simpl.
  - done.
  - done.
  - destruct (invoke_tool_forwarded w original tool g s current_thread Hmsg Hcur)
      as (Hres & Hcur' & Hmsg' & Hds).
    unfold mbind, M_bind, result_of, state_of, events_of in *.
    destruct (invoke_tool _ s) as [[o s'] evs]; simpl in *. subst o.
    destruct (forwarded_call w original tool current_thread)
      as [[response thread'] ds]; simpl in *.
    destruct (IH response s' thread' Hmsg' Hcur') as (Hres' & Hcur'' & Hds').
    destruct (interact w body (k response) s') as [[o s''] evs']; simpl in *.
    destruct (forwarded_run w original (k response) thread')
      as [[o' thread''] ds']; simpl in *.
    by rewrite dispatched_app, Hds, Hds'.
  - destruct (Hbody chunk s) as (evs & Hb & Hnone).
    unfold mbind, M_bind, result_of, state_of, events_of in *.
    rewrite Hb; simpl.
    destruct (IH s current_thread Hmsg Hcur) as (Hres' & Hcur'' & Hds').
    destruct (interact w body k s) as [[o s''] evs']; simpl in *.
    by rewrite dispatched_app, Hnone.
Qed.

End Threads.

(** ** The key sets of the two stores *)

Section KeySets.
Context `{F : AgentFramework}.

Lemma adds_to_both_refl s : adds_to_both s s.
Proof. exists ∅. split; by rewrite (left_id_L ∅ (∪)). Qed.

Lemma adds_to_both_written id s s1 s2 :
  dom (thread_store s1) = {[id]} ∪ dom (thread_store s) →
  dom (supervisor_thread_store s1) = {[id]} ∪ dom (supervisor_thread_store s) →
  same_stores s1 s2 →
  adds_to_both s s2 ∧
  ∀ st sst,
    adds_to_both s
      (with_supervisor_thread_store id sst (with_thread_store id st s2)).
Proof.
  intros H1 H2 [Hts Hsts]. split.
  - exists {[id]}. by rewrite Hts, Hsts.
  - intros st sst. exists {[id]}; simpl.
    rewrite !dom_insert_L, Hts, Hsts, H1, H2.
    split; by rewrite (assoc_L (∪)), union_idemp_L.
Qed.

Lemma processMessage_adds_to_both w user_message thread_id s :
  adds_to_both s (state_of (processMessage w user_message thread_id s)).
Proof.
  destruct (create_agent w) as [e|] eqn:Hc.
  { rewrite (processMessage_not_built _ _ _ _ _ Hc). apply adds_to_both_refl. }
  destruct (resolve_thread w thread_id s) as [[[[id t]|e] s1] evs1] eqn:Hr.
  - pose proof (resolved_running _ _ _ _ _ _ _ user_message Hr) as Hrun.
    apply resolve_thread_returned in Hr as Hr'.
    destruct Hr' as (-> & _ & _ & _ & _ & H1 & H2).
    rewrite (processMessage_resolved _ _ _ _ _ _ _ Hc Hr).
    destruct (run_running w _ _ user_message t _ Hrun) as [(Hst & _) _].
    unfold state_of in *.
    destruct (interact _ _ _ _) as [[[[response_text t']|e] s2] evs]; simpl in *.
    + destruct (self_current_thread s2); simpl;
        by apply (adds_to_both_written id s (with_user_message user_message s1) s2).
    + by apply (adds_to_both_written id s (with_user_message user_message s1) s2).
  - apply resolve_thread_raised in Hr as Hr'. destruct Hr' as (-> & -> & _).
    rewrite (processMessage_unresolved _ _ _ _ _ _ _ Hc Hr). apply adds_to_both_refl.
Qed.

Lemma processMessageStream_adds_to_both w user_message thread_id s :
  adds_to_both s (state_of (processMessageStream w user_message thread_id s)).
Proof.
  destruct (create_agent w) as [e|] eqn:Hc.
  { rewrite (processMessageStream_not_built _ _ _ _ _ Hc). apply adds_to_both_refl. }
  destruct (resolve_thread w thread_id s) as [[[[id t]|e] s1] evs1] eqn:Hr.
  - pose proof (resolved_running _ _ _ _ _ _ _ user_message Hr) as Hrun.
    apply resolve_thread_returned in Hr as Hr'.
    destruct Hr' as (-> & _ & _ & _ & _ & H1 & H2).
    destruct (has_run_stream w) eqn:Hs.
    + rewrite (processMessageStream_streamed _ _ _ _ _ _ _ Hc Hr Hs).
      destruct (run_stream_running w _ _ user_message t _ Hrun) as [(Hst & _) _].
      unfold state_of in *.
      destruct (interact _ _ _ _) as [[[t'|e] s2] evs]; simpl in *.
      * destruct (self_current_thread s2); simpl;
          by apply (adds_to_both_written id s (with_user_message user_message s1) s2).
      * by apply (adds_to_both_written id s (with_user_message user_message s1) s2).
    + rewrite (processMessageStream_unsupported _ _ _ _ _ _ _ Hc Hr Hs); simpl.
      by apply (adds_to_both_written id s (with_user_message user_message s1)
                  (with_user_message user_message s1)).
  - apply resolve_thread_raised in Hr as Hr'. destruct Hr' as (-> & -> & _).
    rewrite (processMessageStream_unresolved _ _ _ _ _ _ _ Hc Hr).
    apply adds_to_both_refl.
Qed.

Lemma run_turn_adds_to_both t s : adds_to_both s (run_turn t s).
Proof.
  destruct t; [apply processMessage_adds_to_both | apply processMessageStream_adds_to_both].
Qed.



End KeySets.

(** * The claims *)

Section Claims.
Context `{F : AgentFramework}.

(** C1.  In every turn, blocking or streaming, every responder that is
    run is run on the caller's [user_message] itself, whatever message the
    supervisor's model wrote when it called the routing tool; and once the
    thread is resolved the turn is the one in which every routing tool
    forwards [user_message]: the responder runs made, the dialogue thread
    they leave and the way the blocking turn ends are those of
    [forwarded_run], where each responder called is run on [user_message]
    and the dialogue thread and its answer goes back to the supervisor. *)
Theorem original_utterance_forwarded (w : World) (user_message : string)
    (thread_id : option string) (s : SupervisorAgent) :
  Forall (λ d, d.1.2 = user_message)
    (dispatched (events_of (processMessage w user_message thread_id s))) ∧
  Forall (λ d, d.1.2 = user_message)
    (dispatched (events_of (processMessageStream w user_message thread_id s))) ∧
  ∀ processed_thread_id t s1,
    create_agent w = None →
    resolve_thread w thread_id s = (Returned (processed_thread_id, t), s1, []) →
    ∃ current_thread,
      self_current_thread s1 = Some current_thread ∧
      (let turn := processMessage w user_message thread_id s in
       let forwarded :=
         forwarded_run w user_message (agent_run w user_message t) current_thread in
       dispatched (events_of turn) = forwarded.2 ∧
       self_current_thread (state_of turn) = Some forwarded.1.2 ∧
       result_of turn =
         match forwarded.1.1 with
         | Returned (response_text, _) => Returned (response_text, processed_thread_id)
         | Raised e => Raised e
         end) ∧
      (has_run_stream w = true →
       let turn := processMessageStream w user_message thread_id s in
       let forwarded :=
         forwarded_run w user_message (agent_run_stream w user_message t)
           current_thread in
       dispatched (events_of turn) = forwarded.2 ∧
       self_current_thread (state_of turn) = Some forwarded.1.2 ∧
       match forwarded.1.1 with
       | Returned _ =>
           thread_store (state_of turn) !! processed_thread_id =
             Some (serialize forwarded.1.2)
       | Raised e =>
           last (yielded (events_of turn)) =
             Some (streaming_failed_message e, true, Some processed_thread_id)
       end).
Proof.
  split_and!.
  - apply dispatched_forwards.
    eapply Forall_impl; [apply processMessage_events | by intros ev [? _]].
  - apply dispatched_forwards.
    destruct (processMessageStream_events w user_message thread_id s)
      as (evs & content & -> & Hevs).
    apply Forall_app. split; [|by repeat constructor].
    eapply Forall_impl; [exact Hevs | by intros ev [? _]].
  - intros processed_thread_id t s1 Hc Hr.
    apply resolve_thread_returned in Hr as Hr'.
    destruct Hr' as (_ & _ & [current_thread Hcur] & _).
    exists current_thread. split_and!; [done | |].
    + intros turn forwarded. subst turn forwarded.
      rewrite (processMessage_resolved _ _ _ _ _ _ _ Hc Hr).
      destruct (interact_forwarded w user_message
                  (λ chunk : Empty_set, match chunk with end)
                  (agent_run w user_message t) (λ chunk, match chunk with end)
                  (with_user_message user_message s1) current_thread eq_refl Hcur)
        as (Hres & Hcur' & Hds).
      unfold result_of, state_of, events_of in *.
      destruct (interact _ _ _ _) as [[o s2] evs]; simpl in *.
      destruct (forwarded_run _ _ _ _) as [[o' thread'] ds]; simpl in *. subst o'.
      destruct o as [[response_text t']|e]; [|done].
      by rewrite Hcur'.
    + intros Hs turn forwarded. subst turn forwarded.
      rewrite (processMessageStream_streamed _ _ _ _ _ _ _ Hc Hr Hs).
      destruct (interact_forwarded w user_message relay_chunk
                  (agent_run_stream w user_message t) relay_chunk_silent
                  (with_user_message user_message s1) current_thread eq_refl Hcur)
        as (Hres & Hcur' & Hds).
      unfold result_of, state_of, events_of in *.
      destruct (interact _ _ _ _) as [[o s2] evs]; simpl in *.
      destruct (forwarded_run _ _ _ _) as [[o' thread'] ds]; simpl in *. subst o'.
      destruct o as [t'|e].
      * rewrite Hcur'; simpl. rewrite dispatched_app, app_nil_r; simpl.
        by rewrite lookup_insert_eq.
      * simpl. rewrite dispatched_app, yielded_app, app_nil_r; simpl.
        by rewrite last_snoc.
Qed.

(** C6, as the code has it.  A turn on a session id with a lane missing
    changes nothing in the supervisor; the streaming turn yields one
    element, final, with the caller's id and the text of the exception; the
    blocking turn raises that exception.  The exception is the thread
    exception naming the id, unless building the agent raised first. *)
Theorem unknown_session_reported (w : World) (user_message id : string)
    (s : SupervisorAgent) :
  thread_store s !! id = None ∨ supervisor_thread_store s !! id = None →
  let e := default (thread_not_found id) (create_agent w) in
  processMessageStream w user_message (Some id) s =
    (Returned (), s, [Yielded (apology_message e) true (Some id)]) ∧
  processMessage w user_message (Some id) s = (Raised e, s, []).
Proof.
  intros Hmiss e. subst e. destruct (create_agent w) as [e|] eqn:Hc; simpl.
  - by rewrite (processMessageStream_not_built _ _ _ _ _ Hc),
               (processMessage_not_built _ _ _ _ _ Hc).
  - pose proof (resolve_thread_missing w id s Hmiss) as Hr.
    by rewrite (processMessageStream_unresolved _ _ _ _ _ _ _ Hc Hr),
               (processMessage_unresolved _ _ _ _ _ _ _ Hc Hr).
Qed.

(** C9, as the code has it.  The capability asked for is [run_stream] of
    the supervisor's own agent, before anything is routed.  When it is
    missing, a streaming turn whose thread resolves yields one element,
    final, with the fixed text and the resolved id; no responder is run,
    and both lanes are stored under that id afterwards, so a later turn on
    it resolves. *)
Theorem streaming_unsupported_reported (w : World) (user_message : string)
    (thread_id : option string) (s : SupervisorAgent)
    (processed_thread_id : string) (t : AgentThread) (s1 : SupervisorAgent) :
  create_agent w = None →
  has_run_stream w = false →
  resolve_thread w thread_id s = (Returned (processed_thread_id, t), s1, []) →
  let turn := processMessageStream w user_message thread_id s in
  events_of turn =
    [Yielded streaming_unsupported_message true (Some processed_thread_id)] ∧
  processed_thread_id = default (uuid4 w) thread_id ∧
  ∀ w', ∃ t' s2,
    resolve_thread w' (Some processed_thread_id) (state_of turn) =
      (Returned (processed_thread_id, t'), s2, []).
Proof.
  intros Hc Hs Hr turn. subst turn.
  rewrite (processMessageStream_unsupported _ _ _ _ _ _ _ Hc Hr Hs).
  apply resolve_thread_returned in Hr as (_ & Hid & _ & [st Hst] & [sst Hsst] & _).
  split_and!; [done | done |]. intros w'.
  eexists _, _. by apply resolve_thread_resumed.
Qed.


(** C3, as the code has it.  In a turn that persists, the routing lane is
    written with the thread that the supervisor's own run ended with, and
    the dialogue lane with the dialogue thread as the responder runs of the
    turn left it, each responder having been run on the dialogue thread;
    the supervisor's run is given the routing thread only.  (What the
    supervisor's run keeps in its thread is its own affair: a reply that
    relays a responder's text keeps that text.) *)
Theorem lanes_written_by_their_own_runs (w : World) (user_message : string)
    (thread_id : option string) (s : SupervisorAgent)
    (processed_thread_id : string) (t : AgentThread) (s1 : SupervisorAgent) :
  create_agent w = None →
  resolve_thread w thread_id s = (Returned (processed_thread_id, t), s1, []) →
  ∃ current_thread,
    self_current_thread s1 = Some current_thread ∧
    (∀ response_text t' s2 evs,
       interact w (λ chunk : Empty_set, match chunk with end)
         (agent_run w user_message t) (with_user_message user_message s1)
       = (Returned (response_text, t'), s2, evs) →
       let turn := processMessage w user_message thread_id s in
       result_of turn = Returned (response_text, processed_thread_id) ∧
       ends_with (agent_run w user_message t) (response_text, t') ∧
       supervisor_thread_store (state_of turn) !! processed_thread_id =
         Some (serialize t') ∧
       thread_store (state_of turn) !! processed_thread_id =
         Some (serialize (dialogue_after w current_thread (dispatched (events_of turn)))) ∧
       on_dialogue_thread w current_thread (dispatched (events_of turn))) ∧
    (∀ t' s2 evs,
       has_run_stream w = true →
       interact w relay_chunk
         (agent_run_stream w user_message t) (with_user_message user_message s1)
       = (Returned t', s2, evs) →
       let turn := processMessageStream w user_message thread_id s in
       ends_with (agent_run_stream w user_message t) t' ∧
       supervisor_thread_store (state_of turn) !! processed_thread_id =
         Some (serialize t') ∧
       thread_store (state_of turn) !! processed_thread_id =
         Some (serialize (dialogue_after w current_thread (dispatched (events_of turn)))) ∧
       on_dialogue_thread w current_thread (dispatched (events_of turn))).
Proof.
  intros Hc Hr.
  apply resolve_thread_returned in Hr as Hr'.
  destruct Hr' as (_ & _ & [current_thread Hcur] & _).
  exists current_thread. split_and!; [done | |].
  - intros response_text t' s2 evs Hrun turn. subst turn.
    rewrite (processMessage_resolved _ _ _ _ _ _ _ Hc Hr).
    pose proof (interact_threads w (λ chunk : Empty_set, match chunk with end)
                  (agent_run w user_message t) (λ chunk, match chunk with end)
                  (with_user_message user_message s1) current_thread Hcur) as Hth.
    rewrite Hrun in *. unfold result_of, state_of, events_of in *; simpl in *.
    destruct Hth as (-> & Hon & Hend); simpl.
    by rewrite !lookup_insert_eq.
  - intros t' s2 evs Hs Hrun turn. subst turn.
    rewrite (processMessageStream_streamed _ _ _ _ _ _ _ Hc Hr Hs).
    pose proof (interact_threads w relay_chunk
                  (agent_run_stream w user_message t) relay_chunk_silent
                  (with_user_message user_message s1) current_thread Hcur) as Hth.
    rewrite Hrun in *. unfold result_of, state_of, events_of in *; simpl in *.
    destruct Hth as (-> & Hon & Hend); simpl.
    rewrite dispatched_app, app_nil_r; simpl.
    by rewrite !lookup_insert_eq.
Qed.


End Claims.

(** ** The payment tool *)

Section PaymentClaims.
Import PaymentTool.
Variable Payment_init : Payment -> option Exception.
Variable PaymentService : Type.
Variable PaymentService_process_payment :
  Payment -> PaymentService -> Outcome unit * PaymentService.

(** C10.  Whatever the arguments, when the payment is built and the
    service call on it returns, [process_payment] returns
    [{"status": "ok"}]; and no call of the tool returns anything else. *)
Theorem process_payment_status_ok
    (account_id : string) (amount : float) (description : string)
    (payment_method_id : string) (timestamp : string)
    (recipient_name recipient_bank_code payment_type : option string)
    (payment_service payment_service' : PaymentService) (v : unit) :
  let payment_obj :=
    {| accountId := account_id; amount := amount; description := description;
       recipientName := recipient_name; recipientBankCode := recipient_bank_code;
       paymentMethodId := payment_method_id; paymentType := payment_type;
       timestamp := timestamp |} in
  Payment_init payment_obj = None →
  PaymentService_process_payment payment_obj payment_service
    = (Returned v, payment_service') →
  process_payment Payment_init PaymentService PaymentService_process_payment
    account_id amount description payment_method_id timestamp
    recipient_name recipient_bank_code payment_type payment_service
    = (Returned {["status" := "ok"]}, payment_service') ∧
  ∀ account_id amount description payment_method_id timestamp
    recipient_name recipient_bank_code payment_type payment_service,
    match (process_payment Payment_init PaymentService PaymentService_process_payment
             account_id amount description payment_method_id timestamp
             recipient_name recipient_bank_code payment_type payment_service).1 with
    | Returned status => status = {["status" := "ok"]}
    | Raised _ => True
    end.
Proof.
  intros payment_obj Hinit Hcall. split.
  - unfold process_payment. fold payment_obj. by rewrite Hinit, Hcall.
  - clear. intros. unfold process_payment.
    destruct (Payment_init _); [done|].
    by destruct (PaymentService_process_payment _ _) as [[?|?] ?].
Qed.

End PaymentClaims.

(** * Further properties *)

(** ** Events of a turn, for any property of events *)

Section TurnEventsOf.
Context `{F : AgentFramework}.
Variable Q : Event -> Prop.

Lemma processMessage_events_of w user_message thread_id s :
  (∀ s0 tool generated_message,
     respects (running s0 user_message) Q (tools w tool generated_message)) →
  Forall Q (events_of (processMessage w user_message thread_id s)).
Proof.
  intros Htools.
  destruct (create_agent w) as [e|] eqn:Hc.
  { rewrite (processMessage_not_built _ _ _ _ _ Hc). constructor. }
  destruct (resolve_thread w thread_id s) as [[[[id t]|e] s1] evs1] eqn:Hr.
  - pose proof (resolved_running _ _ _ _ _ _ _ user_message Hr) as Hrun.
    apply resolve_thread_returned in Hr as Hr'. destruct Hr' as [-> _].
    rewrite (processMessage_resolved _ _ _ _ _ _ _ Hc Hr).
    destruct (respects_interact _ Q w (λ chunk : Empty_set, match chunk with end)
                (agent_run w user_message t) (Htools _)
                (λ chunk : Empty_set, match chunk with end) _ Hrun) as [_ Hevs].
    unfold events_of in *.
    destruct (interact _ _ _ _) as [[[[response_text t']|e] s2] evs]; [|done].
    by destruct (self_current_thread s2).
  - apply resolve_thread_raised in Hr as Hr'. destruct Hr' as (_ & -> & _).
    rewrite (processMessage_unresolved _ _ _ _ _ _ _ Hc Hr). constructor.
Qed.

Lemma processMessageStream_events_of w user_message thread_id s :
  (∀ s0 tool generated_message,
     respects (running s0 user_message) Q (tools w tool generated_message)) →
  (∀ s0 chunk, respects (running s0 user_message) Q (relay_chunk chunk)) →
  ∃ evs content id,
    events_of (processMessageStream w user_message thread_id s) =
      evs ++ [Yielded content true id] ∧
    Forall Q evs.
Proof.
  intros Htools Hrelay.
  destruct (create_agent w) as [e|] eqn:Hc.
  { rewrite (processMessageStream_not_built _ _ _ _ _ Hc).
    exists []. eexists _, _. split; [done | constructor]. }
  destruct (resolve_thread w thread_id s) as [[[[id t]|e] s1] evs1] eqn:Hr.
  - pose proof (resolved_running _ _ _ _ _ _ _ user_message Hr) as Hrun.
    apply resolve_thread_returned in Hr as Hr'. destruct Hr' as (-> & _).
    destruct (has_run_stream w) eqn:Hs.
    + rewrite (processMessageStream_streamed _ _ _ _ _ _ _ Hc Hr Hs).
      destruct (respects_interact _ Q w relay_chunk
                  (agent_run_stream w user_message t) (Htools _) (Hrelay _) _ Hrun)
        as [_ Hevs].
      unfold events_of in *.
      destruct (interact _ _ _ _) as [[[t'|e] s2] evs]; simpl in *.
      * destruct (self_current_thread s2); simpl; eauto.
      * eauto.
    + rewrite (processMessageStream_unsupported _ _ _ _ _ _ _ Hc Hr Hs); simpl.
      exists []. eexists _, _. split; [done | constructor].
  - apply resolve_thread_raised in Hr as Hr'.
    destruct Hr' as (_ & -> & _).
    rewrite (processMessageStream_unresolved _ _ _ _ _ _ _ Hc Hr); simpl.
    exists []. eexists _, _. split; [done | constructor].
Qed.

End TurnEventsOf.

(** ** Which lanes a turn writes *)

Section Lanes.
Context `{F : AgentFramework}.

Lemma writes_only_refl id s : writes_only id s s.
Proof. by intros id' _. Qed.

Lemma resolve_thread_writes_only w thread_id s processed_thread_id t s1 evs :
  resolve_thread w thread_id s = (Returned (processed_thread_id, t), s1, evs) →
  writes_only processed_thread_id s s1.
Proof.
  destruct thread_id as [id|].
  - destruct (thread_store s !! id) as [st|] eqn:Hst;
      [destruct (supervisor_thread_store s !! id) as [sst|] eqn:Hsst|].
    + rewrite (resolve_thread_resumed _ _ _ _ _ Hst Hsst).
      intros ?; simplify_eq. by intros id' _.
    + rewrite resolve_thread_missing by auto. done.
    + rewrite resolve_thread_missing by auto. done.
  - rewrite resolve_thread_new. intros ?; simplify_eq.
    intros id' Hne; simpl. by rewrite !lookup_insert_ne.
Qed.

Lemma writes_only_written id s s1 s2 :
  writes_only id s s1 →
  same_stores s1 s2 →
  writes_only id s s2 ∧
  ∀ st sst,
    writes_only id s
      (with_supervisor_thread_store id sst (with_thread_store id st s2)).
Proof.
  intros Hw [Hts Hsts]. split.
  - intros id' Hne. rewrite Hts, Hsts. by apply Hw.
  - intros st sst id' Hne; simpl.
    rewrite !lookup_insert_ne, Hts, Hsts by done. by apply Hw.
Qed.


Lemma tools_respects (Q : Event -> Prop) w s0 original tool generated_message :
  (∀ t, Q (Dispatched tool original t)) →
  respects (running s0 original) Q (tools w tool generated_message).
Proof.
  intros HQ.
  assert (tools w tool generated_message = route_to w tool generated_message)
    as -> by by destruct tool.
  intros s ([Hst1 Hst2] & Hmsg & [t Ht]). unfold remembers in Hmsg.
  unfold running, same_stores, remembers, is_Some.
  unfold route_to, get_user_message, get_current_thread, state_of, events_of.
  unfold mbind, M_bind, get; simpl.
  destruct (build_af_agent w tool); simpl.
  { split; [|constructor]. by repeat split; eauto. }
  rewrite Hmsg; simpl; rewrite Ht; simpl.
  destruct (responder_run w tool original t) as [[text|e] t']; simpl.
  all: split; [by repeat split; eauto | by repeat constructor].
Qed.

Lemma tools_unbuilt (I : SupervisorAgent -> Prop) (Q : Event -> Prop)
    w tool generated_message :
  is_Some (build_af_agent w tool) →
  respects I Q (tools w tool generated_message).
Proof.
  intros [e He].
  assert (tools w tool generated_message = route_to w tool generated_message)
    as -> by by destruct tool.
  intros s Hs. unfold route_to, state_of, events_of, mbind, M_bind.
  rewrite He; simpl. split; [done | constructor].
Qed.

Lemma relay_chunk_respects (I : SupervisorAgent -> Prop) (Q : Event -> Prop) chunk :
  (∀ content, content ≠ "" → Q (Yielded content false None)) →
  respects I Q (relay_chunk chunk).
Proof.
  intros HQ. unfold relay_chunk.
  destruct (chunk_text chunk) as [content|]; [|apply respects_ret].
  case_decide; [apply respects_ret | by apply respects_emit, HQ].
Qed.

Lemma yielded_substantial (evs : list Event) :
  Forall substantial evs →
  Forall (λ el, is_final el = true ∨ element_content el ≠ "") (yielded evs).
Proof.
  induction 1 as [|[agent utterance t|content final id] evs Hev _ IH]; simpl;
    [constructor | done |].
  constructor; [|done]. unfold is_final, element_content; simpl in *.
  destruct final; [by left | right; by apply Hev].
Qed.




End Lanes.

(** ** The further properties of the supervisor *)

Section Further.
Context `{F : AgentFramework}.

(** X1.  A turn, blocking or streaming, changes the lanes of no session
    but its own: under every id other than the caller's, or the new id
    when the caller gave none, both stores hold after the turn what they
    held before. *)
Theorem other_sessions_untouched (w : World) (user_message : string)
    (thread_id : option string) (s : SupervisorAgent) (id' : string) :
  id' ≠ default (uuid4 w) thread_id →
  (thread_store (state_of (processMessage w user_message thread_id s)) !! id'
     = thread_store s !! id' ∧
   supervisor_thread_store (state_of (processMessage w user_message thread_id s)) !! id'
     = supervisor_thread_store s !! id') ∧
  (thread_store (state_of (processMessageStream w user_message thread_id s)) !! id'
     = thread_store s !! id' ∧
   supervisor_thread_store (state_of (processMessageStream w user_message thread_id s)) !! id'
     = supervisor_thread_store s !! id').
Proof.
  intros Hne.
  cut (writes_only (default (uuid4 w) thread_id) s
         (state_of (processMessage w user_message thread_id s)) ∧
       writes_only (default (uuid4 w) thread_id) s
         (state_of (processMessageStream w user_message thread_id s))).
  { intros [Hb Hs]. split; [by apply Hb | by apply Hs]. }
  clear id' Hne.
  destruct (create_agent w) as [e|] eqn:Hc.
  { rewrite (processMessage_not_built _ _ _ _ _ Hc),
            (processMessageStream_not_built _ _ _ _ _ Hc).
    split; apply writes_only_refl. }
  destruct (resolve_thread w thread_id s) as [[[[id t]|e] s1] evs1] eqn:Hr.
  - pose proof (resolved_running _ _ _ _ _ _ _ user_message Hr) as Hrun.
    pose proof (resolve_thread_writes_only _ _ _ _ _ _ _ Hr) as Hw.
    apply resolve_thread_returned in Hr as Hr'. destruct Hr' as (-> & <- & _).
    split.
    + rewrite (processMessage_resolved _ _ _ _ _ _ _ Hc Hr).
      destruct (run_running w _ _ user_message t _ Hrun) as [(Hst & _) _].
      unfold state_of in *.
      destruct (interact _ _ _ _) as [[[[response_text t']|e] s2] evs]; simpl in *.
      * destruct (self_current_thread s2); simpl;
          by apply (writes_only_written id s (with_user_message user_message s1) s2).
      * by apply (writes_only_written id s (with_user_message user_message s1) s2).
    + destruct (has_run_stream w) eqn:Hs.
      * rewrite (processMessageStream_streamed _ _ _ _ _ _ _ Hc Hr Hs).
        destruct (run_stream_running w _ _ user_message t _ Hrun) as [(Hst & _) _].
        unfold state_of in *.
        destruct (interact _ _ _ _) as [[[t'|e] s2] evs]; simpl in *.
        -- destruct (self_current_thread s2); simpl;
             by apply (writes_only_written id s (with_user_message user_message s1) s2).
        -- by apply (writes_only_written id s (with_user_message user_message s1) s2).
      * by rewrite (processMessageStream_unsupported _ _ _ _ _ _ _ Hc Hr Hs).
  - apply resolve_thread_raised in Hr as Hr'. destruct Hr' as (-> & -> & _).
    rewrite (processMessage_unresolved _ _ _ _ _ _ _ Hc Hr),
            (processMessageStream_unresolved _ _ _ _ _ _ _ Hc Hr).
    split; apply writes_only_refl.
Qed.

(** X2.  No sequence of turns removes a session: every key of either
    store is still a key of that store afterwards. *)
Theorem sessions_never_removed (ts : list Turn) (s : SupervisorAgent) :
  dom (thread_store s) ⊆ dom (thread_store (run_turns ts s)) ∧
  dom (supervisor_thread_store s) ⊆ dom (supervisor_thread_store (run_turns ts s)).
Proof.
  revert s. induction ts as [|t ts IH]; intros s; [done|].
  destruct (run_turn_adds_to_both t s) as (written & H1 & H2).
  destruct (IH (run_turn t s)) as [IH1 IH2]. simpl.
  split; (etrans; [|eassumption]).
  - rewrite H1. apply union_subseteq_r.
  - rewrite H2. apply union_subseteq_r.
Qed.

(** X3.  A blocking turn on a stored session whose model run raises:
    the exception reaches the caller as it is, both stores are as before
    the turn, and resolving the same id again gives the threads the failed
    turn was given. *)
Theorem blocking_failure_not_persisted (w : World) (user_message id : string)
    (s : SupervisorAgent) (st sst : ThreadState)
    (e : Exception) (s2 : SupervisorAgent) (evs : list Event) :
  create_agent w = None →
  thread_store s !! id = Some st →
  supervisor_thread_store s !! id = Some sst →
  interact w (λ chunk : Empty_set, match chunk with end)
    (agent_run w user_message (update_from_thread_state get_new_thread sst))
    (with_user_message user_message
       (with_current_thread (update_from_thread_state get_new_thread st) s))
  = (Raised e, s2, evs) →
  processMessage w user_message (Some id) s = (Raised e, s2, evs) ∧
  thread_store s2 = thread_store s ∧
  supervisor_thread_store s2 = supervisor_thread_store s ∧
  ∀ w', resolve_thread w' (Some id) s2 =
          (Returned (id, update_from_thread_state get_new_thread sst),
           with_current_thread (update_from_thread_state get_new_thread st) s2, []).
Proof.
  intros Hc Hst Hsst Hrun.
  pose proof (resolve_thread_resumed w id s st sst Hst Hsst) as Hr.
  pose proof (resolved_running _ _ _ _ _ _ _ user_message Hr) as Hrunning.
  rewrite (processMessage_resolved _ _ _ _ _ _ _ Hc Hr).
  destruct (run_running w _ _ user_message
              (update_from_thread_state get_new_thread sst) _ Hrunning)
    as [([Hts Hsts] & _) _].
  rewrite Hrun in *. unfold state_of in *; simpl in *.
  split_and!; [done | done | done |].
  intros w'. apply (resolve_thread_resumed w' id s2 st sst); congruence.
Qed.


(** X5.  Over a framework whose threads come back from their serialized
    state, the turn after a turn that persisted resumes exactly where that
    turn ended: resolving the id it returned gives the supervisor's thread
    as its run left it and changes nothing, the dialogue thread being the
    one the responders left. *)
Theorem next_turn_resumes_threads (w : World) (user_message : string)
    (thread_id : option string) (s : SupervisorAgent)
    (processed_thread_id : string) (t : AgentThread) (s1 : SupervisorAgent) :
  (∀ thread, update_from_thread_state get_new_thread (serialize thread) = thread) →
  create_agent w = None →
  resolve_thread w thread_id s = (Returned (processed_thread_id, t), s1, []) →
  (∀ response_text t' s2 evs,
     interact w (λ chunk : Empty_set, match chunk with end)
       (agent_run w user_message t) (with_user_message user_message s1)
     = (Returned (response_text, t'), s2, evs) →
     ∀ w',
       resolve_thread w' (Some processed_thread_id)
         (state_of (processMessage w user_message thread_id s)) =
       (Returned (processed_thread_id, t'),
        state_of (processMessage w user_message thread_id s), [])) ∧
  (∀ t' s2 evs,
     has_run_stream w = true →
     interact w relay_chunk
       (agent_run_stream w user_message t) (with_user_message user_message s1)
     = (Returned t', s2, evs) →
     ∀ w',
       resolve_thread w' (Some processed_thread_id)
         (state_of (processMessageStream w user_message thread_id s)) =
       (Returned (processed_thread_id, t'),
        state_of (processMessageStream w user_message thread_id s), [])).
Proof.
  intros Hlaw Hc Hr.
  pose proof (resolved_running _ _ _ _ _ _ _ user_message Hr) as Hrun.
  assert (∀ s2 current_thread t' w',
            self_current_thread s2 = Some current_thread →
            resolve_thread w' (Some processed_thread_id)
              (with_supervisor_thread_store processed_thread_id (serialize t')
                 (with_thread_store processed_thread_id (serialize current_thread) s2)) =
            (Returned (processed_thread_id, t'),
             with_supervisor_thread_store processed_thread_id (serialize t')
               (with_thread_store processed_thread_id (serialize current_thread) s2),
             [])) as Hresume.
  { intros s2 current_thread t' w' Hcur.
    rewrite (resolve_thread_resumed w' processed_thread_id _
               (serialize current_thread) (serialize t'))
      by (simpl; apply lookup_insert_eq).
    rewrite !Hlaw. destruct s2; simpl in *. by subst. }
  split.
  - intros response_text t' s2 evs Hint w'.
    rewrite (processMessage_resolved _ _ _ _ _ _ _ Hc Hr).
    destruct (run_running w _ _ user_message t _ Hrun)
      as [(_ & _ & [current_thread Hcur]) _].
    rewrite Hint in *. unfold state_of in *; simpl in *. rewrite Hcur; simpl.
    by apply Hresume.
  - intros t' s2 evs Hs Hint w'.
    rewrite (processMessageStream_streamed _ _ _ _ _ _ _ Hc Hr Hs).
    destruct (run_stream_running w _ _ user_message t _ Hrun)
      as [(_ & _ & [current_thread Hcur]) _].
    rewrite Hint in *. unfold state_of in *; simpl in *. rewrite Hcur; simpl.
    by apply Hresume.
Qed.

(** X6.  No element of a streaming turn that is not final has empty
    content: updates without text, or with empty text, are not relayed. *)
Theorem nonfinal_elements_have_text (w : World) (user_message : string)
    (thread_id : option string) (s : SupervisorAgent) :
  Forall (λ el, is_final el = true ∨ element_content el ≠ "")
    (yielded (events_of (processMessageStream w user_message thread_id s))).
Proof.
  destruct (processMessageStream_events_of substantial w user_message thread_id s)
    as (evs & content & id & -> & Hevs).
  - intros. by apply tools_respects.
  - intros. apply relay_chunk_respects. by intros content Hne _.
  - rewrite yielded_app. apply Forall_app. split.
    + by apply yielded_substantial.
    + repeat constructor.
Qed.


(** X8.  A responder whose agent cannot be built is not run in the turn,
    blocking or streaming, whatever the supervisor's model calls. *)
Theorem unbuilt_responder_never_run (w : World) (user_message : string)
    (thread_id : option string) (s : SupervisorAgent) (agent : Responder) :
  is_Some (build_af_agent w agent) →
  Forall (λ d, d.1.1 ≠ agent)
    (dispatched (events_of (processMessage w user_message thread_id s))) ∧
  Forall (λ d, d.1.1 ≠ agent)
    (dispatched (events_of (processMessageStream w user_message thread_id s))).
Proof.
  intros Hbuild.
  set (Q := λ ev : Event,
         match ev with
         | Dispatched a _ _ => a ≠ agent
         | Yielded _ _ _ => True
         end).
  assert (∀ evs, Forall Q evs → Forall (λ d, d.1.1 ≠ agent) (dispatched evs)) as HQ.
  { induction 1 as [|[a utterance t|content final id] evs Hev _ IH]; simpl;
      [constructor | by constructor | done]. }
  assert (∀ s0 tool generated_message,
            respects (running s0 user_message) Q (tools w tool generated_message))
    as Htools.
  { intros s0 tool generated_message.
    assert (tool = agent ∨ tool ≠ agent) as [->|Hne]
      by (destruct tool, agent; (by left) || (by right)).
    - by apply tools_unbuilt.
    - by apply tools_respects. }
  split; apply HQ.
  - by apply processMessage_events_of.
  - destruct (processMessageStream_events_of Q w user_message thread_id s)
      as (evs & content & id & -> & Hevs); [done | |].
    + intros. by apply relay_chunk_respects.
    + apply Forall_app. split; [done | by repeat constructor].
Qed.

End Further.

(** ** The payment agent *)

Section PaymentAgentBuild.
Import PaymentAgentClass.
Variable instructions_format : string -> string -> string.
Variable connect : MCPStreamableHTTPTool -> list MCPStreamableHTTPTool -> option Exception.
Variable create_agent : ChatAgent -> option Exception.

(** X9.  [build_af_agent] of the payment agent connects the account, the
    transaction and the payment client in this order, each once, and never
    disconnects one: when it ends, the clients connected are those
    connected before followed by the first [k] of the three.  It returns
    an agent only with all three connected, named ["PaymentAgent"], with
    the formatted instructions and the three clients followed by the
    invoice scanner as tools; it raises with [k < 3] when connecting the
    next client raised, the clients connected so far staying connected. *)
Theorem build_af_agent_connections (self : PaymentAgent) (now : string)
    (connected : list MCPStreamableHTTPTool) :
  let r := build_af_agent instructions_format connect create_agent self now connected in
  ∃ k,
    k ≤ 3 ∧
    r.2 = connected ++ take k (mcp_servers self) ∧
    match r.1 with
    | Returned agent =>
        k = 3 ∧
        agent_name agent = "PaymentAgent" ∧
        agent_instructions agent = instructions_format "bob.user@contoso.com" now ∧
        agent_tools agent = (MCPServer <$> mcp_servers self) ++ [scan_invoice_plugin]
    | Raised e =>
        (∃ server,
           mcp_servers self !! k = Some server ∧
           connect server (connected ++ take k (mcp_servers self)) = Some e) ∨
        (k = 3 ∧ ∃ agent, create_agent agent = Some e)
    end.
Proof.
  unfold build_af_agent, connect_server; simpl.
  destruct (connect _ connected) as [e|] eqn:H1.
  { exists 0; simpl. rewrite (right_id_L [] (++)). split_and!; [lia | done |].
    left. by eexists. }
  destruct (connect _ (connected ++ [_])) as [e|] eqn:H2.
  { exists 1; simpl. split_and!; [lia | done |]. left. by eexists. }
  destruct (connect _ ((connected ++ [_]) ++ [_])) as [e|] eqn:H3.
  { exists 2; simpl. rewrite <- !(assoc_L (++)) in *; simpl in *.
    split_and!; [lia | done |]. left. by eexists. }
  destruct (create_agent _) as [e|] eqn:H4; exists 3; simpl;
    rewrite <- !(assoc_L (++)); simpl.
  - split_and!; [lia | done |]. right. eauto.
  - by split_and!.
Qed.

End PaymentAgentBuild.

(** * Turns with the raises the class does not handle *)

Section AsyncRules.
Context `{F : AgentFramework}.

Lemma lift_respects (I : SupervisorAgent -> Prop) (Q : Event -> Prop) {A} (m : M A) :
  respects I Q m → Async.respects I Q (Async.lift m).
Proof.
  intros Hm s Hs. destruct (Hm s Hs) as [Hs' Hevs].
  unfold Async.lift, Async.state_of, Async.events_of, state_of, events_of in *.
  by destruct (m s) as [[[a|e] s'] evs].
Qed.

Lemma async_respects_bind (I : SupervisorAgent -> Prop) (Q : Event -> Prop) {A B}
    (m : Async.AM A) (f : A -> Async.AM B) :
  Async.respects I Q m → (∀ a, Async.respects I Q (f a)) →
  Async.respects I Q (m ≫= f).
Proof.
  intros Hm Hf s Hs. destruct (Hm s Hs) as [Hs' Hevs].
  unfold mbind, Async.AM_bind, Async.state_of, Async.events_of in *.
  destruct (m s) as [[[a|b] s'] evs]; simpl in *; [|done].
  destruct (Hf a s' Hs') as [Hs'' Hevs'].
  unfold Async.state_of, Async.events_of in *.
  destruct (f a s') as [[c s''] evs']; simpl in *.
  split; [done | by apply Forall_app].
Qed.

Lemma async_interact_respects (I : SupervisorAgent -> Prop) (Q : Event -> Prop) {C R}
    (w : World) (body : C -> M unit) (i : Interaction C R) (n : option nat) :
  (∀ tool generated_message, respects I Q (tools w tool generated_message)) →
  (∀ chunk, respects I Q (body chunk)) →
  Async.respects I Q (Async.interact w body i n).
Proof.
  intros Ht Hb. revert n.
  assert (∀ A (b : Async.BaseException), Async.respects I Q (Async.raising (A:=A) b))
    as Hraising by (intros A b s Hs; split; [done | constructor]).
  assert (∀ A (a : A), Async.respects I Q (mret a))
    as Hret by (intros A a s Hs; split; [done | constructor]).
  induction i as [r|e|tool g k IH|c k IH]; intros [[|n]|]; simpl; try done.
  all: apply async_respects_bind;
    [apply lift_respects; (by apply respects_invoke_tool) || done | by intros].
Qed.

(** A run that is never cancelled is the run of the first embedding. *)
Lemma async_interact_uncancelled {C R} (w : World) (body : C -> M unit)
    (i : Interaction C R) (s : SupervisorAgent) :
  Async.interact w body i None s = Async.lift (interact w body i) s.
Proof.
  revert s. induction i as [r|e|tool g k IH|c k IH]; intros s; simpl; try done.
  - unfold mbind, Async.AM_bind, M_bind, Async.lift.
    destruct (invoke_tool _ s) as [[[response|e] s'] evs]; simpl; [|done].
    rewrite IH. unfold Async.lift.
    by destruct (interact w body (k response) s') as [[[a|e] s''] evs'].
  - unfold mbind, Async.AM_bind, M_bind, Async.lift.
    destruct (body c s) as [[[[]|e] s'] evs]; simpl; [|done].
    rewrite IH. unfold Async.lift.
    by destruct (interact w body k s') as [[[a|e] s''] evs'].
Qed.

(** Only a cancelled task raises [CancelledError]. *)
Lemma async_interact_cancelled {C R} (w : World) (body : C -> M unit)
    (i : Interaction C R) (n : option nat) (s : SupervisorAgent) :
  Async.completion_of (Async.interact w body i n s) = Async.Raising Async.CancelledError →
  is_Some n.
Proof.
  destruct n as [n|]; [by eauto|].
  rewrite async_interact_uncancelled. unfold Async.lift, Async.completion_of.
  by destruct (interact w body i s) as [[[a|e] s'] evs].
Qed.

Lemma async_resolve_thread_new f w s :
  Async.resolve_thread f w None s =
  match Async.serialize_raises f Async.new_thread_state with
  | Some e =>
      (Async.Raising (Async.PyException e), with_current_thread get_new_thread s, [])
  | None =>
      match Async.serialize_raises f Async.new_supervisor_thread_state with
      | Some e =>
          (Async.Raising (Async.PyException e),
           with_thread_store (uuid4 w) (serialize get_new_thread)
             (with_current_thread get_new_thread s), [])
      | None =>
          (Async.Done (uuid4 w, get_new_thread),
           with_supervisor_thread_store (uuid4 w) (serialize get_new_thread)
             (with_thread_store (uuid4 w) (serialize get_new_thread)
                (with_current_thread get_new_thread s)), [])
      end
  end.
Proof.
  unfold Async.resolve_thread, Async.serialize_at, mbind, Async.AM_bind, Async.lift; simpl.
  destruct (Async.serialize_raises f Async.new_thread_state); simpl; [done|].
  by destruct (Async.serialize_raises f Async.new_supervisor_thread_state).
Qed.

Lemma async_update_thread_stores f processed_thread_id t' s2 current_thread :
  self_current_thread s2 = Some current_thread →
  Async.update_thread_stores f processed_thread_id t' s2 =
  match Async.serialize_raises f Async.updated_thread_state with
  | Some e => (Async.Raising (Async.PyException e), s2, [])
  | None =>
      match Async.serialize_raises f Async.updated_supervisor_thread_state with
      | Some e =>
          (Async.Raising (Async.PyException e),
           with_thread_store processed_thread_id (serialize current_thread) s2, [])
      | None =>
          (Async.Done (),
           with_supervisor_thread_store processed_thread_id (serialize t')
             (with_thread_store processed_thread_id (serialize current_thread) s2), [])
      end
  end.
Proof.
  intros Hcur.
  unfold Async.update_thread_stores, Async.serialize_at, get_current_thread.
  unfold mbind, Async.AM_bind, M_bind, Async.lift, get; simpl. rewrite Hcur; simpl.
  destruct (Async.serialize_raises f Async.updated_thread_state); simpl; [done|].
  by destruct (Async.serialize_raises f Async.updated_supervisor_thread_state).
Qed.

(** What thread resolution gives: no event; a thread, with the dialogue
    thread set, or an [Exception]. *)
Lemma async_resolve_thread_cases f w thread_id s :
  match Async.resolve_thread f w thread_id s with
  | (Async.Done (processed_thread_id, t), s1, evs) =>
      evs = [] ∧
      processed_thread_id = default (uuid4 w) thread_id ∧
      is_Some (self_current_thread s1)
  | (Async.Raising b, s1, evs) =>
      evs = [] ∧ ∃ e, b = Async.PyException e
  end.
Proof.
  destruct thread_id as [id|].
  - unfold Async.resolve_thread, Async.lift.
    destruct (resolve_thread w (Some id) s) as [[[[pid t]|e] s1] evs] eqn:Hr.
    + by apply resolve_thread_returned in Hr as (-> & -> & ? & _).
    + apply resolve_thread_raised in Hr as (_ & -> & _). eauto.
  - rewrite async_resolve_thread_new.
    destruct (Async.serialize_raises f Async.new_thread_state); [by eauto|].
    destruct (Async.serialize_raises f Async.new_supervisor_thread_state);
      [by eauto|]. simpl. eauto.
Qed.

Lemma async_resolved_running f w thread_id s processed_thread_id t s1 evs user_message :
  Async.resolve_thread f w thread_id s = (Async.Done (processed_thread_id, t), s1, evs) →
  running (with_user_message user_message s1) user_message
    (with_user_message user_message s1).
Proof.
  intros Hr. pose proof (async_resolve_thread_cases f w thread_id s) as H.
  rewrite Hr in H. destruct H as (_ & _ & Hcur). by repeat split.
Qed.

End AsyncRules.

(** ** The two turns, stage by stage *)

Section AsyncStages.
Context `{F : AgentFramework}.

Lemma async_processMessageStream_not_built f w user_message thread_id s e :
  create_agent w = Some e →
  Async.processMessageStream f w user_message thread_id s =
  (Async.Done (), s, [Yielded (apology_message e) true thread_id]).
Proof.
  intros Hc.
  unfold Async.processMessageStream, Async.try_except, _build_af_agent.
  unfold mbind, Async.AM_bind, Async.lift. by rewrite Hc.
Qed.

Lemma async_processMessage_not_built f w user_message thread_id s e :
  create_agent w = Some e →
  Async.processMessage f w user_message thread_id s =
  (Async.Raising (Async.PyException e), s, []).
Proof.
  intros Hc. unfold Async.processMessage, _build_af_agent.
  unfold mbind, Async.AM_bind, Async.lift. by rewrite Hc.
Qed.

Lemma async_processMessageStream_unresolved f w user_message thread_id s e s1 :
  create_agent w = None →
  Async.resolve_thread f w thread_id s = (Async.Raising (Async.PyException e), s1, []) →
  Async.processMessageStream f w user_message thread_id s =
  (Async.Done (), s1, [Yielded (apology_message e) true thread_id]).
Proof.
  intros Hc Hr.
  unfold Async.processMessageStream, Async.try_except, _build_af_agent.
  unfold mbind, Async.AM_bind, Async.lift at 1. rewrite Hc; simpl. by rewrite Hr.
Qed.

Lemma async_processMessage_unresolved f w user_message thread_id s b s1 :
  create_agent w = None →
  Async.resolve_thread f w thread_id s = (Async.Raising b, s1, []) →
  Async.processMessage f w user_message thread_id s = (Async.Raising b, s1, []).
Proof.
  intros Hc Hr. unfold Async.processMessage, _build_af_agent.
  unfold mbind, Async.AM_bind, Async.lift at 1. rewrite Hc; simpl. by rewrite Hr.
Qed.

Lemma async_processMessageStream_unsupported f w user_message thread_id s
    processed_thread_id t s1 :
  create_agent w = None →
  Async.resolve_thread f w thread_id s = (Async.Done (processed_thread_id, t), s1, []) →
  has_run_stream w = false →
  Async.processMessageStream f w user_message thread_id s =
  (Async.Done (), with_user_message user_message s1,
   [Yielded streaming_unsupported_message true (Some processed_thread_id)]).
Proof.
  intros Hc Hr Hs.
  unfold Async.processMessageStream, Async.try_except, _build_af_agent.
  unfold mbind, Async.AM_bind, Async.lift at 1. rewrite Hc; simpl. rewrite Hr; simpl.
  by rewrite Hs.
Qed.

Lemma async_processMessageStream_streamed f w user_message thread_id s
    processed_thread_id t s1 :
  create_agent w = None →
  Async.resolve_thread f w thread_id s = (Async.Done (processed_thread_id, t), s1, []) →
  has_run_stream w = true →
  Async.processMessageStream f w user_message thread_id s =
  match Async.interact w relay_chunk (agent_run_stream w user_message t)
          (Async.cancelled_after f) (with_user_message user_message s1) with
  | (Async.Done t', s2, evs) =>
      match Async.update_thread_stores f processed_thread_id t' s2 with
      | (Async.Done _, s3, evs3) =>
          (Async.Done (), s3,
           evs ++ evs3 ++ [Yielded "" true (Some processed_thread_id)])
      | (Async.Raising (Async.PyException e), s3, evs3) =>
          (Async.Done (), s3,
           (evs ++ evs3) ++ [Yielded (apology_message e) true thread_id])
      | (Async.Raising Async.CancelledError, s3, evs3) =>
          (Async.Raising Async.CancelledError, s3, evs ++ evs3)
      end
  | (Async.Raising (Async.PyException e), s2, evs) =>
      (Async.Done (), s2,
       evs ++ [Yielded (streaming_failed_message e) true (Some processed_thread_id)])
  | (Async.Raising Async.CancelledError, s2, evs) =>
      (Async.Raising Async.CancelledError, s2, evs)
  end.
Proof.
  intros Hc Hr Hs.
  unfold Async.processMessageStream, Async.try_except at 1, _build_af_agent.
  unfold mbind at 1 2 3, Async.AM_bind at 1 2 3, Async.lift at 1.
  rewrite Hc; simpl. rewrite Hr; simpl. rewrite Hs; simpl.
  unfold mbind, Async.AM_bind, Async.stream_response, Async.try_except; simpl.
  unfold mbind, Async.AM_bind.
  destruct (Async.interact _ _ _ _ _) as [[[t'|[e|]] s2] evs]; simpl.
  - destruct (Async.update_thread_stores _ _ _ _) as [[[[]|[e|]] s3] evs3]; simpl.
    + by rewrite ?app_nil_r.
    + by rewrite ?app_nil_r.
    + by rewrite ?app_nil_r.
  - by rewrite ?app_nil_r.
  - done.
Qed.

Lemma async_processMessage_resolved f w user_message thread_id s
    processed_thread_id t s1 :
  create_agent w = None →
  Async.resolve_thread f w thread_id s = (Async.Done (processed_thread_id, t), s1, []) →
  Async.processMessage f w user_message thread_id s =
  match Async.interact w (λ chunk : Empty_set, match chunk with end)
          (agent_run w user_message t)
          (Async.cancelled_after f) (with_user_message user_message s1) with
  | (Async.Done (response_text, t'), s2, evs) =>
      match Async.update_thread_stores f processed_thread_id t' s2 with
      | (Async.Done _, s3, evs3) =>
          (Async.Done (response_text, processed_thread_id), s3, evs ++ evs3)
      | (Async.Raising b, s3, evs3) => (Async.Raising b, s3, evs ++ evs3)
      end
  | (Async.Raising b, s2, evs) => (Async.Raising b, s2, evs)
  end.
Proof.
  intros Hc Hr. unfold Async.processMessage, _build_af_agent.
  unfold mbind at 1 2 3, Async.AM_bind at 1 2 3, Async.lift at 1.
  rewrite Hc; simpl. rewrite Hr; simpl.
  unfold mbind, Async.AM_bind.
  destruct (Async.interact _ _ _ _ _) as [[[[response_text t']|b] s2] evs]; [|done].
  destruct (Async.update_thread_stores _ _ _ _) as [[[[]|b] s3] evs3]; simpl;
    by rewrite ?app_nil_r.
Qed.

End AsyncStages.

(** ** Without faults, the turns of the first embedding *)

Section Faultless.
Context `{F : AgentFramework}.

Lemma async_resolve_thread_faultless w thread_id s :
  Async.resolve_thread Async.faultless w thread_id s =
  Async.lift (resolve_thread w thread_id) s.
Proof.
  destruct thread_id as [id|]; [done|].
  rewrite async_resolve_thread_new. unfold Async.lift.
  by rewrite resolve_thread_new.
Qed.

Lemma async_update_thread_stores_faultless processed_thread_id t' s :
  Async.update_thread_stores Async.faultless processed_thread_id t' s =
  Async.lift (update_thread_stores processed_thread_id t') s.
Proof.
  unfold Async.update_thread_stores, update_thread_stores, Async.serialize_at.
  unfold get_current_thread, mbind, Async.AM_bind, M_bind, Async.lift, get; simpl.
  by destruct (self_current_thread s).
Qed.

(** With no cancellation and no serialization raising, the streaming turn
    is [processMessageStream] as embedded first. *)
Lemma async_processMessageStream_faultless w user_message thread_id s :
  Async.processMessageStream Async.faultless w user_message thread_id s =
  Async.lift (processMessageStream w user_message thread_id) s.
Proof.
  destruct (create_agent w) as [e|] eqn:Hc.
  { rewrite (async_processMessageStream_not_built _ _ _ _ _ _ Hc). unfold Async.lift.
    by rewrite (processMessageStream_not_built _ _ _ _ _ Hc). }
  pose proof (async_resolve_thread_faultless w thread_id s) as Hr'.
  unfold Async.lift in Hr'.
  destruct (resolve_thread w thread_id s) as [[[[id t]|e] s1] evs1] eqn:Hr.
  - apply resolve_thread_returned in Hr as Hevs. destruct Hevs as (-> & _ & [cur Hcur] & _).
    destruct (has_run_stream w) eqn:Hs.
    + rewrite (async_processMessageStream_streamed _ _ _ _ _ _ _ _ Hc Hr' Hs).
      unfold Async.lift.
      rewrite (processMessageStream_streamed _ _ _ _ _ _ _ Hc Hr Hs).
      simpl. rewrite async_interact_uncancelled. unfold Async.lift.
      destruct (interact _ _ _ _) as [[[t'|e] s2] evs]; simpl; [|done].
      rewrite async_update_thread_stores_faultless.
      unfold Async.lift, update_thread_stores, get_current_thread, mbind, M_bind, get;
        simpl.
      destruct (self_current_thread s2); simpl; by rewrite ?app_nil_r.
    + rewrite (async_processMessageStream_unsupported _ _ _ _ _ _ _ _ Hc Hr' Hs).
      unfold Async.lift.
      by rewrite (processMessageStream_unsupported _ _ _ _ _ _ _ Hc Hr Hs).
  - apply resolve_thread_raised in Hr as Hevs. destruct Hevs as (_ & -> & _).
    rewrite (async_processMessageStream_unresolved _ _ _ _ _ _ _ Hc Hr').
    unfold Async.lift.
    by rewrite (processMessageStream_unresolved _ _ _ _ _ _ _ Hc Hr).
Qed.

(** And the blocking turn is [processMessage] as embedded first. *)
Lemma async_processMessage_faultless w user_message thread_id s :
  Async.processMessage Async.faultless w user_message thread_id s =
  Async.lift (processMessage w user_message thread_id) s.
Proof.
  destruct (create_agent w) as [e|] eqn:Hc.
  { rewrite (async_processMessage_not_built _ _ _ _ _ _ Hc). unfold Async.lift.
    by rewrite (processMessage_not_built _ _ _ _ _ Hc). }
  pose proof (async_resolve_thread_faultless w thread_id s) as Hr'.
  unfold Async.lift in Hr'.
  destruct (resolve_thread w thread_id s) as [[[[id t]|e] s1] evs1] eqn:Hr.
  - apply resolve_thread_returned in Hr as Hevs. destruct Hevs as (-> & _).
    rewrite (async_processMessage_resolved _ _ _ _ _ _ _ _ Hc Hr').
    unfold Async.lift.
    rewrite (processMessage_resolved _ _ _ _ _ _ _ Hc Hr).
    simpl. rewrite async_interact_uncancelled. unfold Async.lift.
    destruct (interact _ _ _ _) as [[[[response_text t']|e] s2] evs]; simpl; [|done].
    rewrite async_update_thread_stores_faultless.
    unfold Async.lift, update_thread_stores, get_current_thread, mbind, M_bind, get;
      simpl.
    destruct (self_current_thread s2); simpl; by rewrite ?app_nil_r.
  - apply resolve_thread_raised in Hr as Hevs. destruct Hevs as (_ & -> & _).
    rewrite (async_processMessage_unresolved _ _ _ _ _ _ _ Hc Hr').
    unfold Async.lift.
    by rewrite (processMessage_unresolved _ _ _ _ _ _ _ Hc Hr).
Qed.

End Faultless.

(** ** The claims on these turns *)

Section AsyncClaims.
Context `{F : AgentFramework}.

(** The events of a streaming turn: those of the loop, then the final
    element if the task was not cancelled. *)
Lemma async_processMessageStream_events f w user_message thread_id s :
  let turn := Async.processMessageStream f w user_message thread_id s in
  ∃ evs,
    Forall (relayed user_message) evs ∧
    match Async.completion_of turn with
    | Async.Done _ =>
        ∃ content id,
          Async.events_of turn = evs ++ [Yielded content true id] ∧
          (id = Some (default (uuid4 w) thread_id) ∨ id = thread_id) ∧
          (create_agent w = None →
           (∀ site, Async.serialize_raises f site = None) →
           id = Some (default (uuid4 w) thread_id))
    | Async.Raising b =>
        b = Async.CancelledError ∧
        is_Some (Async.cancelled_after f) ∧
        Async.events_of turn = evs
    end.
Proof.
  intros turn. subst turn.
  destruct (create_agent w) as [e|] eqn:Hc.
  { rewrite (async_processMessageStream_not_built _ _ _ _ _ _ Hc).
    exists []. split; [constructor|]. simpl. eexists _, _. by split_and!; eauto. }
  pose proof (async_resolve_thread_cases f w thread_id s) as Hcases.
  destruct (Async.resolve_thread f w thread_id s) as [[[[id t]|b] s1] evs1] eqn:Hr.
  - destruct Hcases as (-> & Hid & _).
    pose proof (async_resolved_running _ _ _ _ _ _ _ _ user_message Hr) as Hrun.
    destruct (has_run_stream w) eqn:Hs.
    + rewrite (async_processMessageStream_streamed _ _ _ _ _ _ _ _ Hc Hr Hs).
      destruct (async_interact_respects _ _ w relay_chunk
                  (agent_run_stream w user_message t) (Async.cancelled_after f)
                  (λ tool g, tools_running w _ user_message tool g)
                  (relay_chunk_running _ user_message) _ Hrun)
        as [(_ & _ & [current_thread Hcur]) Hevs].
      pose proof (async_interact_cancelled w relay_chunk
                    (agent_run_stream w user_message t) (Async.cancelled_after f)
                    (with_user_message user_message s1)) as Hcancel.
      unfold Async.completion_of, Async.state_of, Async.events_of in *.
      destruct (Async.interact _ _ _ _ _) as [[[t'|[e|]] s2] evs]; simpl in *.
      * rewrite (async_update_thread_stores _ _ _ _ _ Hcur).
        exists evs. split; [done|].
        destruct (Async.serialize_raises f Async.updated_thread_state) eqn:H1;
          [|destruct (Async.serialize_raises f Async.updated_supervisor_thread_state)
              eqn:H2]; simpl; rewrite ?app_nil_r.
        -- eexists _, _. split_and!; [done | by right |].
           intros _ Hnone. by rewrite Hnone in H1.
        -- eexists _, _. split_and!; [done | by right |].
           intros _ Hnone. by rewrite Hnone in H2.
        -- eexists _, _. split_and!; [done | left; by rewrite Hid | by rewrite Hid].
      * exists evs. split; [done|].
        eexists _, _. split_and!; [done | left; by rewrite Hid | by rewrite Hid].
      * exists evs. split_and!; [done | done | by apply Hcancel | done].
    + rewrite (async_processMessageStream_unsupported _ _ _ _ _ _ _ _ Hc Hr Hs).
      exists []. split; [constructor|]. simpl.
      eexists _, _. split_and!; [done | left; by rewrite Hid | by rewrite Hid].
  - destruct Hcases as (-> & e & ->).
    rewrite (async_processMessageStream_unresolved _ _ _ _ _ _ _ Hc Hr).
    exists []. split; [constructor|]. simpl.
    eexists _, _. split_and!; [done | by right |].
    intros _ Hnone. destruct thread_id as [id|]; [done|].
    rewrite async_resolve_thread_new, !Hnone in Hr. done.
Qed.

(** C4, as the code has it.  A streaming turn that is not cancelled
    yields elements that are not final and carry no thread id, then
    exactly one final element, the last.  The final element carries the
    resolved id (the caller's, or the new one), or else what the caller
    gave, which for a caller without id is no id; it carries the resolved
    id whenever the agent is built and no serialization raises.  A turn
    ends by raising only when its task was cancelled, and then it yields
    no final element. *)
Theorem streaming_terminal_contract (f : Async.Faults) (w : World)
    (user_message : string) (thread_id : option string) (s : SupervisorAgent) :
  let turn := Async.processMessageStream f w user_message thread_id s in
  let elements := yielded (Async.events_of turn) in
  match Async.completion_of turn with
  | Async.Done _ =>
      (∃ chunks final,
         elements = chunks ++ [final] ∧
         is_final final = true ∧
         Forall (λ el, is_final el = false ∧ element_thread_id el = None) chunks ∧
         (element_thread_id final = Some (default (uuid4 w) thread_id) ∨
          element_thread_id final = thread_id) ∧
         (create_agent w = None →
          (∀ site, Async.serialize_raises f site = None) →
          element_thread_id final = Some (default (uuid4 w) thread_id))) ∧
      length (filter (λ el, is_final el = true) elements) = 1 ∧
      is_final <$> last elements = Some true
  | Async.Raising b =>
      b = Async.CancelledError ∧
      is_Some (Async.cancelled_after f) ∧
      Forall (λ el, is_final el = false ∧ element_thread_id el = None) elements
  end.
Proof.
  intros turn elements. subst elements.
  destruct (async_processMessageStream_events f w user_message thread_id s)
    as (evs & Hevs & Hturn). fold turn in Hturn.
  assert (Forall (λ el, is_final el = false ∧ element_thread_id el = None)
            (yielded evs)) as Hchunks.
  { apply yielded_intermediate.
    eapply Forall_impl; [exact Hevs | by intros ev [_ ?]]. }
  destruct (Async.completion_of turn) as [[]|b].
  - destruct Hturn as (content & id & -> & Hid & Hpos).
    rewrite yielded_app; simpl. split_and!.
    + by exists (yielded evs), (content, true, id).
    + rewrite filter_app, length_app; simpl.
      replace (filter _ (yielded evs)) with (@nil Element); [done|].
      symmetry. clear -Hchunks.
      induction Hchunks as [|el els [Hel _] _ IH]; [done|].
      rewrite filter_cons_False; [done | by rewrite Hel].
    + by rewrite last_snoc.
  - destruct Hturn as (-> & Hcancelled & ->). done.
Qed.

(** C5, as the code has it.  A streaming turn on a stored session whose
    stream stops by raising, after any number of chunks: both stores are
    as before the turn; when what is raised is an [Exception], the turn
    yields one element more, final, with the failure text and the session
    id; when it is [CancelledError], the turn yields nothing more and
    raises it. *)
Theorem midstream_failure_not_persisted (f : Async.Faults) (w : World)
    (user_message id : string) (s : SupervisorAgent) (st sst : ThreadState)
    (b : Async.BaseException) (s2 : SupervisorAgent) (evs : list Event) :
  create_agent w = None →
  has_run_stream w = true →
  thread_store s !! id = Some st →
  supervisor_thread_store s !! id = Some sst →
  Async.interact w relay_chunk
    (agent_run_stream w user_message (update_from_thread_state get_new_thread sst))
    (Async.cancelled_after f)
    (with_user_message user_message
       (with_current_thread (update_from_thread_state get_new_thread st) s))
  = (Async.Raising b, s2, evs) →
  let turn := Async.processMessageStream f w user_message (Some id) s in
  match b with
  | Async.PyException e =>
      Async.completion_of turn = Async.Done () ∧
      yielded (Async.events_of turn) =
        yielded evs ++ [(streaming_failed_message e, true, Some id)]
  | Async.CancelledError =>
      Async.completion_of turn = Async.Raising Async.CancelledError ∧
      yielded (Async.events_of turn) = yielded evs
  end ∧
  Forall (λ el, is_final el = false ∧ element_thread_id el = None) (yielded evs) ∧
  thread_store (Async.state_of turn) = thread_store s ∧
  supervisor_thread_store (Async.state_of turn) = supervisor_thread_store s.
Proof.
  intros Hc Hs Hst Hsst Hrun turn. subst turn.
  assert (Async.resolve_thread f w (Some id) s =
          (Async.Done (id, update_from_thread_state get_new_thread sst),
           with_current_thread (update_from_thread_state get_new_thread st) s, []))
    as Hr.
  { unfold Async.resolve_thread, Async.lift.
    by rewrite (resolve_thread_resumed w id s st sst Hst Hsst). }
  pose proof (async_resolved_running _ _ _ _ _ _ _ _ user_message Hr) as Hrunning.
  rewrite (async_processMessageStream_streamed _ _ _ _ _ _ _ _ Hc Hr Hs).
  destruct (async_interact_respects _ _ w relay_chunk
              (agent_run_stream w user_message
                 (update_from_thread_state get_new_thread sst))
              (Async.cancelled_after f)
              (λ tool g, tools_running w _ user_message tool g)
              (relay_chunk_running _ user_message) _ Hrunning)
    as [([Hts Hsts] & _) Hevs].
  rewrite Hrun in *.
  unfold Async.completion_of, Async.state_of, Async.events_of in *; simpl in *.
  assert (Forall (λ el, is_final el = false ∧ element_thread_id el = None)
            (yielded evs)) as Hchunks.
  { apply yielded_intermediate.
    eapply Forall_impl; [exact Hevs | by intros ev [_ ?]]. }
  destruct b as [e|]; simpl; rewrite ?yielded_app; by split_and!.
Qed.

(** C8, as the code has it.  The failure paths of the two turns, one by
    one.  The streaming turn yields a final element with the resolved id
    when the agent has no [run_stream] or the stream raises an
    [Exception]; with what the caller gave as thread id (no id for a new
    session, also after the new id was made and stored) when building the
    agent, resolving the thread or a serialization raises; and no final
    element when the task is cancelled.  The blocking turn raises what
    the failing step raised and returns nothing. *)
Theorem failure_paths_thread_id (f : Async.Faults) (w : World)
    (user_message : string) (thread_id : option string) (s : SupervisorAgent) :
  let streaming := Async.processMessageStream f w user_message thread_id s in
  let blocking := Async.processMessage f w user_message thread_id s in
  (∀ e,
     create_agent w = Some e →
     streaming = (Async.Done (), s, [Yielded (apology_message e) true thread_id]) ∧
     blocking = (Async.Raising (Async.PyException e), s, [])) ∧
  (∀ b s1,
     create_agent w = None →
     Async.resolve_thread f w thread_id s = (Async.Raising b, s1, []) →
     ∃ e,
       b = Async.PyException e ∧
       streaming = (Async.Done (), s1, [Yielded (apology_message e) true thread_id]) ∧
       blocking = (Async.Raising b, s1, [])) ∧
  (∀ processed_thread_id t s1,
     create_agent w = None →
     Async.resolve_thread f w thread_id s =
       (Async.Done (processed_thread_id, t), s1, []) →
     processed_thread_id = default (uuid4 w) thread_id ∧
     (has_run_stream w = false →
      streaming =
        (Async.Done (), with_user_message user_message s1,
         [Yielded streaming_unsupported_message true (Some processed_thread_id)])) ∧
     (∀ b s2 evs,
        has_run_stream w = true →
        Async.interact w relay_chunk (agent_run_stream w user_message t)
          (Async.cancelled_after f) (with_user_message user_message s1)
        = (Async.Raising b, s2, evs) →
        streaming =
          match b with
          | Async.PyException e =>
              (Async.Done (), s2,
               evs ++ [Yielded (streaming_failed_message e) true
                         (Some processed_thread_id)])
          | Async.CancelledError => (Async.Raising Async.CancelledError, s2, evs)
          end ∧
        Forall (λ el, is_final el = false ∧ element_thread_id el = None)
          (yielded evs)) ∧
     (∀ t' s2 evs e s3,
        has_run_stream w = true →
        Async.interact w relay_chunk (agent_run_stream w user_message t)
          (Async.cancelled_after f) (with_user_message user_message s1)
        = (Async.Done t', s2, evs) →
        Async.update_thread_stores f processed_thread_id t' s2
        = (Async.Raising (Async.PyException e), s3, []) →
        streaming =
          (Async.Done (), s3, evs ++ [Yielded (apology_message e) true thread_id])) ∧
     (∀ b s2 evs,
        Async.interact w (λ chunk : Empty_set, match chunk with end)
          (agent_run w user_message t)
          (Async.cancelled_after f) (with_user_message user_message s1)
        = (Async.Raising b, s2, evs) →
        blocking = (Async.Raising b, s2, evs)) ∧
     (∀ response_text t' s2 evs b s3,
        Async.interact w (λ chunk : Empty_set, match chunk with end)
          (agent_run w user_message t)
          (Async.cancelled_after f) (with_user_message user_message s1)
        = (Async.Done (response_text, t'), s2, evs) →
        Async.update_thread_stores f processed_thread_id t' s2
        = (Async.Raising b, s3, []) →
        blocking = (Async.Raising b, s3, evs))).
Proof.
  intros streaming blocking. subst streaming blocking. split_and!.
  - intros e Hc.
    by rewrite (async_processMessageStream_not_built _ _ _ _ _ _ Hc),
               (async_processMessage_not_built _ _ _ _ _ _ Hc).
  - intros b s1 Hc Hr.
    pose proof (async_resolve_thread_cases f w thread_id s) as Hcases.
    rewrite Hr in Hcases. destruct Hcases as (_ & e & ->). exists e.
    by rewrite (async_processMessageStream_unresolved _ _ _ _ _ _ _ Hc Hr),
               (async_processMessage_unresolved _ _ _ _ _ _ _ Hc Hr).
  - intros processed_thread_id t s1 Hc Hr.
    pose proof (async_resolve_thread_cases f w thread_id s) as Hcases.
    rewrite Hr in Hcases. destruct Hcases as (_ & Hid & _).
    pose proof (async_resolved_running _ _ _ _ _ _ _ _ user_message Hr) as Hrun.
    split_and!; [done | | | | |].
    + intros Hs. by rewrite (async_processMessageStream_unsupported _ _ _ _ _ _ _ _ Hc Hr Hs).
    + intros b s2 evs Hs Hint.
      rewrite (async_processMessageStream_streamed _ _ _ _ _ _ _ _ Hc Hr Hs).
      destruct (async_interact_respects _ _ w relay_chunk
                  (agent_run_stream w user_message t) (Async.cancelled_after f)
                  (λ tool g, tools_running w _ user_message tool g)
                  (relay_chunk_running _ user_message) _ Hrun) as [_ Hevs].
      rewrite Hint in *. unfold Async.events_of in Hevs; simpl in Hevs. split.
      * by destruct b.
      * apply yielded_intermediate.
        eapply Forall_impl; [exact Hevs | by intros ev [_ ?]].
    + intros t' s2 evs e s3 Hs Hint Hupdate.
      rewrite (async_processMessageStream_streamed _ _ _ _ _ _ _ _ Hc Hr Hs).
      rewrite Hint, Hupdate. by rewrite app_nil_r.
    + intros b s2 evs Hint.
      by rewrite (async_processMessage_resolved _ _ _ _ _ _ _ _ Hc Hr), Hint.
    + intros response_text t' s2 evs b s3 Hint Hupdate.
      rewrite (async_processMessage_resolved _ _ _ _ _ _ _ _ Hc Hr), Hint, Hupdate.
      by rewrite app_nil_r.
Qed.

End AsyncClaims.

(** * The claims at work *)

Import Sample.


(** The supervisor's model writes a message of its own for the tool call;
    the responder is run on the caller's. *)
Example relaying_forwards_original :
  events_of (processMessage relaying "What is my balance?" None initial) =
    [Dispatched AccountAgent "What is my balance?" []].
Proof. reflexivity. Qed.

(** C3: the supervisor relays the account agent's answer, and the routing
    lane written by the turn holds that text. *)
Lemma responder_output_in_routing_state :
  dispatched (events_of (processMessage relaying "What is my balance?" None initial)) =
    [(AccountAgent, "What is my balance?", [])] ∧
  (responder_run relaying AccountAgent "What is my balance?" []).1 =
    ToolReturned "Your balance is 100 EUR" ∧
  supervisor_thread_store
    (state_of (processMessage relaying "What is my balance?" None initial))
    !! "3f2b8c1e-5d4a-4c6b-9e7f-0a1b2c3d4e5f" =
    Some [(User, "What is my balance?"); (Assistant, "Your balance is 100 EUR")].
Proof. split_and!; reflexivity. Qed.

(** C3 at work, on a new session routed to the account agent. *)
Lemma lanes_written_by_their_own_runs_witness :
  create_agent relaying = None ∧
  supervisor_thread_store
    (state_of (processMessage relaying "What is my balance?" None initial))
    !! "3f2b8c1e-5d4a-4c6b-9e7f-0a1b2c3d4e5f" =
    Some (serialize [(User, "What is my balance?"); (Assistant, balance_text)]) ∧
  thread_store
    (state_of (processMessageStream relaying "What is my balance?" None initial))
    !! "3f2b8c1e-5d4a-4c6b-9e7f-0a1b2c3d4e5f" =
    Some (serialize
            (dialogue_after relaying []
               (dispatched
                  (events_of
                     (processMessageStream relaying "What is my balance?" None initial))))).
Proof.
  assert (create_agent relaying = None) as Hc by reflexivity.
  split; [exact Hc|].
  destruct (lanes_written_by_their_own_runs relaying "What is my balance?" None initial
              _ _ _ Hc (resolve_thread_new relaying initial))
    as (current_thread & Hcur & Hblocking & Hstreaming).
  assert (current_thread = []) as -> by (simpl in Hcur; congruence).
  split.
  - refine (proj1 (proj2 (proj2 (Hblocking balance_text _ _ _ _)))). reflexivity.
  - refine (proj1 (proj2 (proj2 (Hstreaming _ _ _ _ _)))); reflexivity.
Defined.

(** C6: the blocking turn on an id that was never stored raises. *)
Lemma blocking_turn_raises_on_unknown_session :
  processMessage relaying "What is my balance?" (Some "no-such-session") initial =
    (Raised (AgentThreadException
               "Thread id no-such-session not found in thread stores"),
     initial, []) ∧
  ¬ ∃ r, result_of (processMessage relaying "What is my balance?"
                      (Some "no-such-session") initial) = Returned r.
Proof. split; [reflexivity | by intros [r Hr]]. Qed.

(** C6 at work, on a session whose routing lane is missing. *)
Lemma unknown_session_reported_witness :
  supervisor_thread_store one_lane !! "s1" = None ∧
  processMessageStream relaying "What is my balance?" (Some "s1") one_lane =
    (Returned (), one_lane,
     [Yielded (apology_message (thread_not_found "s1")) true (Some "s1")]) ∧
  processMessage relaying "What is my balance?" (Some "s1") one_lane =
    (Raised (thread_not_found "s1"), one_lane, []).
Proof.
  assert (supervisor_thread_store one_lane !! "s1" = None) as Hmiss by reflexivity.
  split; [exact Hmiss|].
  exact (unknown_session_reported relaying "What is my balance?" "s1" one_lane
           (or_intror Hmiss)).
Defined.



(** C8: a blocking turn whose model call fails raises; neither the id the
    caller gave nor the id made and stored during the turn is returned. *)
Lemma blocking_failure_returns_no_thread_id :
  is_Some (thread_store one_session !! "s1") ∧
  processMessage failing "What is my balance?" (Some "s1") one_session =
    (Raised (OtherException "connection reset"),
     with_user_message "What is my balance?"
       (with_current_thread [(User, "Hi"); (Assistant, "Hello")] one_session),
     []) ∧
  result_of (processMessage failing "What is my balance?" None initial) =
    Raised (OtherException "connection reset") ∧
  thread_store (state_of (processMessage failing "What is my balance?" None initial))
    !! "3f2b8c1e-5d4a-4c6b-9e7f-0a1b2c3d4e5f" = Some [].
Proof. split_and!; [by eexists | reflexivity..]. Qed.

(** C9: the account agent's agent has no [run_stream], the supervisor's
    has: the streaming turn routes to the account agent and yields the
    relayed chunk and the closing element. *)
Lemma responder_without_run_stream_is_streamed :
  responder_has_run_stream relaying AccountAgent = false ∧
  dispatched (events_of (processMessageStream relaying "What is my balance?" None
                           initial)) =
    [(AccountAgent, "What is my balance?", [])] ∧
  yielded (events_of (processMessageStream relaying "What is my balance?" None
                        initial)) =
    [("Your balance is 100 EUR", false, None);
     ("", true, Some "3f2b8c1e-5d4a-4c6b-9e7f-0a1b2c3d4e5f")].
Proof. split_and!; reflexivity. Qed.

(** C9 at work, on a stored session. *)
Lemma streaming_unsupported_reported_witness :
  create_agent blocking_only = None ∧
  has_run_stream blocking_only = false ∧
  events_of (processMessageStream blocking_only "What is my balance?" (Some "s1")
               one_session) =
    [Yielded streaming_unsupported_message true (Some "s1")] ∧
  "s1" = default (uuid4 blocking_only) (Some "s1").
Proof.
  assert (create_agent blocking_only = None) as Hc by reflexivity.
  assert (has_run_stream blocking_only = false) as Hs by reflexivity.
  split_and!; [done | done | |];
    eapply (streaming_unsupported_reported blocking_only "What is my balance?"
              (Some "s1") one_session "s1" _ _ Hc Hs); reflexivity.
Defined.

(** C10 at work: a negative amount, no recipient, no payment type. *)
Lemma process_payment_status_ok_witness :
  PaymentTool.process_payment (λ _, None) (list PaymentTool.Payment) PaymentTool.recording
    "acc-1010" (-25.5)%float "payment for invoice 1527248" "pm-345678"
    "2025-03-01T10:00:00" None None None []
  = (Returned {["status" := "ok"]},
     [PaymentTool.Build_Payment "acc-1010" (-25.5)%float "payment for invoice 1527248"
        None None "pm-345678" None "2025-03-01T10:00:00"]).
Proof.
  refine (proj1 (process_payment_status_ok (λ _, None) (list PaymentTool.Payment)
                   PaymentTool.recording
                   "acc-1010" (-25.5)%float "payment for invoice 1527248" "pm-345678"
                   "2025-03-01T10:00:00" None None None [] _ () _ _));
    reflexivity.
Defined.

(** * The further properties at work *)

(** X1 at work: a new session next to the stored session ["s1"]. *)
Lemma other_sessions_untouched_witness :
  "s1" ≠ default (uuid4 relaying) None ∧
  thread_store (state_of (processMessage relaying "What is my balance?" None one_session))
    !! "s1" = thread_store one_session !! "s1" ∧
  supervisor_thread_store
    (state_of (processMessageStream relaying "What is my balance?" None one_session))
    !! "s1" = supervisor_thread_store one_session !! "s1".
Proof.
  assert ("s1" ≠ default (uuid4 relaying) None) as Hne by (vm_compute; discriminate).
  destruct (other_sessions_untouched relaying "What is my balance?" None one_session
              "s1" Hne) as [[Hb _] [_ Hs]].
  by split_and!.
Defined.

(** X3 at work: the model call raises on the stored session ["s1"]. *)
Lemma blocking_failure_not_persisted_witness :
  create_agent failing = None ∧
  thread_store one_session !! "s1" = Some [(User, "Hi"); (Assistant, "Hello")] ∧
  processMessage failing "What is my balance?" (Some "s1") one_session =
    (Raised (OtherException "connection reset"),
     with_user_message "What is my balance?"
       (with_current_thread [(User, "Hi"); (Assistant, "Hello")] one_session),
     []).
Proof.
  assert (create_agent failing = None) as Hc by reflexivity.
  assert (thread_store one_session !! "s1" = Some [(User, "Hi"); (Assistant, "Hello")])
    as Hst by reflexivity.
  assert (supervisor_thread_store one_session !! "s1"
          = Some [(User, "Hi"); (Assistant, "Hello")]) as Hsst by reflexivity.
  split_and!; [done | done |].
  eapply (blocking_failure_not_persisted failing "What is my balance?" "s1"
            one_session _ _ _ _ _ Hc Hst Hsst); reflexivity.
Defined.


(** X5 at work: the message lists come back from their serialized state;
    the session made by a first turn is resumed with the supervisor's
    thread of that turn. *)
Lemma next_turn_resumes_threads_witness :
  (∀ thread : list Message,
     update_from_thread_state get_new_thread (serialize thread) = thread) ∧
  resolve_thread failing (Some "3f2b8c1e-5d4a-4c6b-9e7f-0a1b2c3d4e5f")
    (state_of (processMessage relaying "What is my balance?" None initial)) =
  (Returned ("3f2b8c1e-5d4a-4c6b-9e7f-0a1b2c3d4e5f",
             [(User, "What is my balance?"); (Assistant, balance_text)]),
   state_of (processMessage relaying "What is my balance?" None initial), []).
Proof.
  assert (∀ thread : list Message,
            update_from_thread_state get_new_thread (serialize thread) = thread)
    as Hlaw by reflexivity.
  split; [exact Hlaw|].
  refine (proj1 (next_turn_resumes_threads relaying "What is my balance?" None initial
                   _ _ _ Hlaw eq_refl (resolve_thread_new relaying initial))
            balance_text _ _ _ _ failing).
  reflexivity.
Defined.


(** X8 at work: the payment agent cannot be built, the supervisor calls
    it, and no responder is run. *)
Lemma unbuilt_responder_never_run_witness :
  is_Some (build_af_agent payment_unreachable PaymentAgent) ∧
  Forall (λ d, d.1.1 ≠ PaymentAgent)
    (dispatched (events_of (processMessage payment_unreachable "Pay my bill" None initial))) ∧
  events_of (processMessage payment_unreachable "Pay my bill" None initial) = [].
Proof.
  assert (is_Some (build_af_agent payment_unreachable PaymentAgent)) as Hb by by eexists.
  split_and!; [done | | reflexivity].
  exact (proj1 (unbuilt_responder_never_run payment_unreachable "Pay my bill" None
                  initial PaymentAgent Hb)).
Defined.

(** X9 at work: the payment server refuses; the account and transaction
    clients stay connected and no agent is made. *)
Example build_af_agent_payment_server_down :
  PaymentAgentClass.build_af_agent (λ mail now, mail +:+ " " +:+ now)
    PaymentAgentClass.payment_server_down (λ _, None)
    PaymentAgentClass.local_servers "2025-03-01 10:00:00" [] =
  (Raised (OtherException "All connection attempts failed"),
   [PaymentAgentClass.Build_MCPStreamableHTTPTool
      "Account MCP server client" "http://localhost:8070/mcp";
    PaymentAgentClass.Build_MCPStreamableHTTPTool
      "Transaction MCP server client" "http://localhost:8071/mcp"]).
Proof. reflexivity. Qed.

(** * The revised claims at work *)

(** C1 at work: the supervisor's model writes ["The customer wants to know
    the account balance"] for its tool call; the account agent is run on
    the caller's words, and its answer is what the turn returns. *)
Lemma original_utterance_forwarded_witness :
  create_agent relaying = None ∧
  dispatched (events_of (processMessage relaying "What is my balance?" None initial)) =
    (forwarded_run relaying "What is my balance?"
       (agent_run relaying "What is my balance?" []) []).2 ∧
  result_of (processMessage relaying "What is my balance?" None initial) =
    Returned ("Your balance is 100 EUR", "3f2b8c1e-5d4a-4c6b-9e7f-0a1b2c3d4e5f").
Proof.
  assert (create_agent relaying = None) as Hc by reflexivity.
  split; [exact Hc|].
  destruct (original_utterance_forwarded relaying "What is my balance?" None initial)
    as (_ & _ & Hforwarded).
  destruct (Hforwarded _ _ _ Hc (resolve_thread_new relaying initial))
    as (current_thread & Hcur & (Hds & _ & Hres) & _).
  assert (current_thread = []) as -> by (simpl in Hcur; congruence).
  split; [exact Hds | exact Hres].
Defined.

(** C4: when the agent cannot be built for a caller without thread id,
    the only element is final and carries no id; and when the task is
    cancelled during the stream, no element is final. *)
Lemma streaming_turn_without_identified_final :
  yielded (Async.events_of
             (Async.processMessageStream Async.faultless unbuildable
                "What is my balance?" None initial)) =
    [("I apologize, but I encountered an error while processing your request: Azure OpenAI endpoint is not configured",
      true, None)] ∧
  Async.completion_of
    (Async.processMessageStream cancelled_in_stream relaying
       "What is my balance?" (Some "s1") one_session) =
    Async.Raising Async.CancelledError ∧
  yielded (Async.events_of
             (Async.processMessageStream cancelled_in_stream relaying
                "What is my balance?" (Some "s1") one_session)) =
    [("Your balance is 100 EUR", false, None)].
Proof. split_and!; reflexivity. Qed.

(** C4 at work: a new session, the agent built, nothing raising. *)
Lemma streaming_terminal_contract_witness :
  create_agent relaying = None ∧
  (∀ site, Async.serialize_raises Async.faultless site = None) ∧
  ∃ chunks final,
    yielded (Async.events_of
               (Async.processMessageStream Async.faultless relaying
                  "What is my balance?" None initial)) = chunks ++ [final] ∧
    element_thread_id final = Some "3f2b8c1e-5d4a-4c6b-9e7f-0a1b2c3d4e5f".
Proof.
  assert (create_agent relaying = None) as Hc by reflexivity.
  assert (∀ site, Async.serialize_raises Async.faultless site = None) as Hnone
    by reflexivity.
  split_and!; [done | done |].
  pose proof (streaming_terminal_contract Async.faultless relaying
                "What is my balance?" None initial) as H.
  simpl in H. destruct H as ((chunks & final & Hels & _ & _ & _ & Hid) & _).
  exists chunks, final. split; [exact Hels | exact (Hid Hc Hnone)].
Defined.

(** C5: the task is cancelled after the first chunk of a stream on the
    stored session ["s1"]: the chunk is the only element, and none is
    final. *)
Lemma cancelled_stream_yields_no_final_element :
  Async.interact failing relay_chunk
    (agent_run_stream failing "What is my balance?" [(User, "Hi"); (Assistant, "Hello")])
    (Some 1)
    (with_user_message "What is my balance?"
       (with_current_thread [(User, "Hi"); (Assistant, "Hello")] one_session)) =
    (Async.Raising Async.CancelledError,
     with_user_message "What is my balance?"
       (with_current_thread [(User, "Hi"); (Assistant, "Hello")] one_session),
     [Yielded "Your" false None]) ∧
  Async.processMessageStream cancelled_after_chunk failing "What is my balance?"
    (Some "s1") one_session =
    (Async.Raising Async.CancelledError,
     with_user_message "What is my balance?"
       (with_current_thread [(User, "Hi"); (Assistant, "Hello")] one_session),
     [Yielded "Your" false None]).
Proof. split; reflexivity. Qed.

(** C5 at work: the stream raises an [Exception] after the chunk
    ["Your"]. *)
Lemma midstream_failure_not_persisted_witness :
  create_agent failing = None ∧
  has_run_stream failing = true ∧
  thread_store one_session !! "s1" = Some [(User, "Hi"); (Assistant, "Hello")] ∧
  yielded (Async.events_of
             (Async.processMessageStream Async.faultless failing
                "What is my balance?" (Some "s1") one_session)) =
    yielded [Yielded "Your" false None] ++
    [(streaming_failed_message (OtherException "connection reset"), true, Some "s1")] ∧
  thread_store
    (Async.state_of
       (Async.processMessageStream Async.faultless failing "What is my balance?"
          (Some "s1") one_session)) = thread_store one_session.
Proof.
  assert (create_agent failing = None) as Hc by reflexivity.
  assert (has_run_stream failing = true) as Hs by reflexivity.
  assert (thread_store one_session !! "s1" = Some [(User, "Hi"); (Assistant, "Hello")])
    as Hst by reflexivity.
  assert (supervisor_thread_store one_session !! "s1"
          = Some [(User, "Hi"); (Assistant, "Hello")]) as Hsst by reflexivity.
  pose proof (midstream_failure_not_persisted Async.faultless failing
                "What is my balance?" "s1" one_session _ _
                (Async.PyException (OtherException "connection reset")) _ _
                Hc Hs Hst Hsst eq_refl) as H.
  simpl in H. destruct H as ((_ & Hels) & _ & Hts & _).
  split_and!; [done | done | done | exact Hels | exact Hts].
Defined.

(** C8 at work: on a new session the serialization of the updated
    dialogue thread raises; the new id was made and both lanes stored
    under it, and the final element carries no id. *)
Lemma failure_paths_thread_id_witness :
  create_agent relaying = None ∧
  has_run_stream relaying = true ∧
  yielded (Async.events_of
             (Async.processMessageStream unserializable relaying
                "What is my balance?" None initial)) =
    [("Your balance is 100 EUR", false, None);
     (apology_message
        (OtherException "Object of type datetime is not JSON serializable"),
      true, None)] ∧
  is_Some (thread_store
             (Async.state_of
                (Async.processMessageStream unserializable relaying
                   "What is my balance?" None initial))
             !! "3f2b8c1e-5d4a-4c6b-9e7f-0a1b2c3d4e5f").
Proof.
  assert (create_agent relaying = None) as Hc by reflexivity.
  assert (has_run_stream relaying = true) as Hs by reflexivity.
  destruct (failure_paths_thread_id unserializable relaying "What is my balance?"
              None initial) as (_ & _ & Hresolved).
  destruct (Hresolved _ _ _ Hc eq_refl) as (_ & _ & _ & Hpersist & _).
  rewrite (Hpersist _ _ _ _ _ Hs eq_refl eq_refl).
  split_and!; [done | done | reflexivity | by eexists].
Defined.
